(** * mocksh: a shallow embedding of [mocksh.py] and its checked properties

    The embedding follows the branches the module takes on Python 3.6 or
    later ([PY3] holds, [_STR_TYPES = (str, bytes, os.PathLike)], the
    signal table is built from [signal.Signals], waiting with a timeout is
    supported).

    Python values are a tagged union; the named parameters of
    [Process.__init__] take the types of the source's type comments.  What
    the module gets from the interpreter and the operating system
    ([str], the signal enumeration, [errno], [subprocess.Popen], streams,
    the clock) is a parameter of the development. *)

From Stdlib Require Import Floats.
From Stdlib.Strings Require Import Byte Ascii.
From stdpp Require Import gmap strings list fin_maps pretty.

Local Open Scope Z_scope.

(** ** Python strings *)

Module PyStr.

(** [s.replace(old, new)] for one-character [old] and [new]. *)
Fixpoint replace (old new : ascii) (s : string) : string :=
  match s with
  | EmptyString => EmptyString
  | String c s' =>
      String (if Ascii.eqb c old then new else c) (replace old new s')
  end.

(** [s.startswith(c)] for a one-character prefix. *)
Definition startswith (c : ascii) (s : string) : bool :=
  match s with
  | EmptyString => false
  | String c' _ => Ascii.eqb c' c
  end.

(** [s.endswith(c)] for a one-character suffix. *)
Fixpoint endswith (c : ascii) (s : string) : bool :=
  match s with
  | EmptyString => false
  | String c' EmptyString => Ascii.eqb c' c
  | String _ s' => endswith c s'
  end.

(** [len(s)]. *)
Definition len (s : string) : Z := Z.of_nat (String.length s).

(** [s[:-1]]. *)
Fixpoint drop_last (s : string) : string :=
  match s with
  | EmptyString => EmptyString
  | String _ EmptyString => EmptyString
  | String c s' => String c (drop_last s')
  end.

(** [sep.join(parts)]. *)
Fixpoint join (sep : string) (parts : list string) : string :=
  match parts with
  | [] => EmptyString
  | [p] => p
  | p :: ps => p +:+ sep +:+ join sep ps
  end.

End PyStr.

(** ** Insertion-ordered dictionaries

    A Python [dict] whose iteration order the program observes: keyword
    arguments, and the signal tables built by comprehension. *)

Module PyDict.
Section Dict.
Context {K V : Type} `{EqDecision K}.

Fixpoint get (d : list (K * V)) (k : K) : option V :=
  match d with
  | [] => None
  | (k', v) :: d' => if decide (k' = k) then Some v else get d' k
  end.

(** [d[k] = v]: a present key keeps its place, a new key goes last. *)
Fixpoint set (d : list (K * V)) (k : K) (v : V) : list (K * V) :=
  match d with
  | [] => [(k, v)]
  | (k', v') :: d' =>
      if decide (k' = k) then (k, v) :: d' else (k', v') :: set d' k v
  end.

(** [d.items()]. *)
Definition items (d : list (K * V)) : list (K * V) := d.

(** [{key(x): val(x) for x in xs}]. *)
Definition comprehension {X} (key : X → K) (val : X → V) (xs : list X)
  : list (K * V) :=
  fold_left (λ d x, set d (key x) (val x)) xs [].
End Dict.
End PyDict.

(** ** Data model *)

(** A stream object (a file object of the host), by identity. *)
Definition stream := nat.

(** [StrTypes = Union[Text, bytes, os.PathLike]]. *)
Inductive StrTypes :=
| Text (s : string)
| Bytes (b : list byte)
| PathLike (p : string).

(** [subprocess._CMD]: a string, or a sequence of program arguments. *)
Inductive cmd :=
| CmdStr (s : StrTypes)
| CmdSeq (argv : list StrTypes).

(** A [Process] object with the attributes the module reads and writes.
    [pid] identifies the child of the host; [returncode] lives in the
    host. *)
#[warnings="-register-all"]
Inductive Process := mkProcess {
  pid : nat;
  args : cmd;
  check : bool;
  tail : option Process;
  stdin : option stream;
  stdout : option stream;
  stderr : option stream }.

(** The type of an object, as far as [_to_strlike] looks at it:
    [tp_name] is [type(obj).__name__], [tp_str] tells whether
    [type(obj).__str__] is something else than [object.__str__]. *)
Record pytype := { tp_name : string; tp_str : bool }.

(** An object of any other type: its type, its truth value, and a
    description of its state for the host's [str]. *)
Record pyobject := { ob_type : pytype; ob_bool : bool; ob_state : string }.

Inductive value :=
| VNone
| VBool (b : bool)
| VInt (n : Z)
| VFloat (x : float)
| VStr (s : string)
| VBytes (b : list byte)
| VPathLike (p : string)
| VStream (s : stream)
| VProc (p : Process)
| VObj (o : pyobject).

Definition value_of_strlike (s : StrTypes) : value :=
  match s with
  | Text s => VStr s
  | Bytes b => VBytes b
  | PathLike p => VPathLike p
  end.

Definition value_of_stream (s : option stream) : value :=
  match s with
  | Some s => VStream s
  | None => VNone
  end.

(** [subprocess.PIPE]. *)
Definition PIPE : value := VInt (-1).

(** [v is None], [v is True], [v is False]. *)
Definition is_None (v : value) : bool :=
  match v with VNone => true | _ => false end.
Definition is_True (v : value) : bool :=
  match v with VBool true => true | _ => false end.
Definition is_False (v : value) : bool :=
  match v with VBool false => true | _ => false end.

(** The truth value of an object in a condition.  A [Process] in a
    condition would run [Process.__bool__]; the module reads no option
    that holds one, and the embedding takes the default of an object
    there. *)
Definition truthy (v : value) : bool :=
  match v with
  | VNone => false
  | VBool b => b
  | VInt n => negb (n =? 0)
  | VFloat x => negb (PrimFloat.eqb x 0%float)
  | VStr s => negb (String.eqb s "")
  | VBytes b => match b with [] => false | _ => true end
  | VPathLike _ => true
  | VStream _ => true
  | VProc _ => true
  | VObj o => ob_bool o
  end.

(** *** Error kinds as class objects

    [CommandError] itself, or a class made by [type(name, (cls,), members)]
    in [CommandError.code], known by the place it was allocated at. *)
Inductive cls :=
| CommandError
| Subclass (id : nat).

Global Instance cls_eq_dec : EqDecision cls.
Proof. solve_decision. Defined.

(** The class object made by [CommandError.code]: [__name__], the one
    base, and the member [returncode].  The member [__new__] of every such
    class raises [TypeError]. *)
Record class_object := {
  cls_name : string;
  cls_base : cls;
  cls_returncode : value }.

(** The interpreter state of the error taxonomy: the classes made so far
    and the dictionary [CommandError._subclasses]. *)
Record kinds := {
  classes : list class_object;
  _subclasses : gmap Z cls }.

(** An instance of [CommandError]: its class and what [__init__] stores. *)
Record error_instance := {
  inst_class : cls;
  inst_returncode : value;
  inst_process : Process }.

(** Exceptions.  [IOError] carries [exc.errno]; [Raised] is a raised
    instance of [CommandError]; [HostError] is any other exception of the
    interpreter or the host; [OutsideSignature] ends a run where the
    embedding does not follow the program: a keyword that leaves the
    declared type of a parameter of [Process.__init__], or a [Process]
    given as an object to convert to a string. *)
Inductive exn :=
| TypeError (msg : string)
| ValueError (msg : string)
| AttributeError (msg : string)
| IOError (errno : option Z)
| TimeoutExpired
| Raised (e : error_instance)
| OutsideSignature (param : string)
| HostError (what : string).

(** *** The host seen from [Process]

    Literal input is text or bytes.  Every call into the host is an event;
    the events so far are the state of the host. *)
Inductive input_data :=
| InText (s : string)
| InBytes (b : list byte).

Inductive event :=
| EvPopen (args : cmd) (kwargs : gmap string value)
| EvWrite (s : stream) (binary : bool) (data : input_data)
| EvClose (s : stream)
| EvWait (pid : nat) (timeout : option float)
| EvTime.

(** The attributes [subprocess.Popen.__init__] leaves on the object. *)
Record popen_attrs := {
  p_pid : nat;
  p_args : option cmd;
  p_stdin : option stream;
  p_stdout : option stream;
  p_stderr : option stream }.

(** The state the module runs in: the calls made into the host and the
    error taxonomy. *)
Record machine := {
  history : list event;
  kinds_of : kinds }.

(** Computations that may raise. *)
Definition bind_exn {A B} (c : exn + A) (k : A → exn + B) : exn + B :=
  match c with
  | inl e => inl e
  | inr a => k a
  end.

Notation "'let?' x ':=' c 'in' k" := (bind_exn c (λ x, k))
  (at level 10, x pattern, c at level 200, k at level 200, only parsing).

(** Computations that run on the machine and may raise. *)
Definition M (A : Type) : Type := machine → (exn + A) * machine.

Definition ret {A} (a : A) : M A := λ m, (inr a, m).

Definition raise {A} (e : exn) : M A := λ m, (inl e, m).

Definition bind {A B} (c : M A) (k : A → M B) : M B :=
  λ m, match c m with
       | (inl e, m') => (inl e, m')
       | (inr a, m') => k a m'
       end.

Notation "'let*' x ':=' c 'in' k" := (bind c (λ x, k))
  (at level 10, x pattern, c at level 200, k at level 200, only parsing).

(** [try: body finally: fin]. *)
Definition try_finally {A} (body : M A) (fin : M unit) : M A :=
  λ m, match body m with
       | (r, m1) =>
           match fin m1 with
           | (inl e, m2) => (inl e, m2)
           | (inr _, m2) => (r, m2)
           end
       end.

(** [try: body except IOError as exc: handler(exc.errno)]. *)
Definition except_IOError {A} (body : M A) (handler : option Z → M A) : M A :=
  λ m, match body m with
       | (inl (IOError errno), m1) => handler errno m1
       | r => r
       end.

(** A computation on the error taxonomy, run on the machine. *)
Definition on_kinds {A} (c : kinds → (exn + A) * kinds) : M A :=
  λ m, match c (kinds_of m) with
       | (r, k) => (r, {| history := history m; kinds_of := k |})
       end.

Definition record (ev : event) (m : machine) : machine :=
  {| history := history m ++ [ev]; kinds_of := kinds_of m |}.

(** A generator: what it yields, and the exception that ends it, if any. *)
Definition generator : Type := list StrTypes * option exn.

Definition yield (x : StrTypes) (rest : generator) : generator :=
  (x :: rest.1, rest.2).

Definition throw (e : exn) : generator := ([], Some e).

(** [tuple(g)]. *)
Definition tuple (g : generator) : exn + list StrTypes :=
  match g.2 with
  | Some e => inl e
  | None => inr g.1
  end.

(** [d.setdefault(k, v)] on a dictionary whose order is not observed. *)
Definition setdefault {K} `{Countable K} {V} (k : K) (v : V) (d : gmap K V)
  : gmap K V :=
  match d !! k with
  | Some _ => d
  | None => <[k:=v]> d
  end.

(** [kwargs.get(k)]. *)
Definition kwargs_get (kwargs : gmap string value) (k : string) : value :=
  default VNone (kwargs !! k).

(** A [Command]: [args_] and [opts_]. *)
Record Command := {
  args_ : list StrTypes;
  opts_ : gmap string value }.

(** ** A host for the examples

    An interpreter and an operating system to run the module on: [str]
    of the objects the examples use, four signals, the [errno] numbers of
    Linux, and a [Popen] that gives the child a stream for every option
    that is [PIPE]; no call into this host fails, every child exits with
    status 0, and its clock stands still. *)

Definition demo_str (v : value) : string :=
  match v with
  | VNone => "None"
  | VBool true => "True"
  | VBool false => "False"
  | VInt n => pretty n
  | VStr s => s
  | VPathLike p => p
  | VObj o => ob_state o
  | VFloat _ | VBytes _ | VStream _ | VProc _ => ""
  end.

Definition demo_Signals : list (string * Z) :=
  [("SIGHUP", 1); ("SIGINT", 2); ("SIGKILL", 9); ("SIGTERM", 15)].

Definition demo_Popen (calls : list event) (args : cmd)
    (kwargs : gmap string value)
  : exn + popen_attrs :=
  let piped (key : string) (s : stream) : option stream :=
    match kwargs !! key with
    | Some (VInt (-1)) => Some s
    | _ => None
    end in
  let child := length calls in
  inr {| p_pid := child;
         p_args := Some args;
         p_stdin := piped "stdin" (3 * child)%nat;
         p_stdout := piped "stdout" (3 * child + 1)%nat;
         p_stderr := piped "stderr" (3 * child + 2)%nat |}.

Definition demo_write (calls : list event) (s : stream) (binary : bool)
    (data : input_data)
  : option exn := None.

Definition demo_close (calls : list event) (s : stream) : option exn := None.

Definition demo_wait (calls : list event) (pid : nat)
    (timeout : option float)
  : exn + Z := inr 0.

Definition demo_time (calls : list event) : float := 0%float.

(** The machine when the module is loaded. *)
Definition demo_machine : machine :=
  {| history := []; kinds_of := {| classes := []; _subclasses := ∅ |} |}.

(** A running [cat] with a [stdin] stream and no output stream, and a
    [true] without any stream. *)
Definition demo_cat : Process :=
  {| pid := 0; args := CmdSeq [Text "cat"]; check := false; tail := None;
     stdin := Some 7%nat; stdout := None; stderr := None |}.

Definition demo_true : Process :=
  {| pid := 0; args := CmdSeq [Text "true"]; check := false; tail := None;
     stdin := None; stdout := None; stderr := None |}.

(** A running [seq] whose output is a pipe. *)
Definition demo_seq : Process :=
  {| pid := 0; args := CmdSeq [Text "seq"; Text "10"]; check := false;
     tail := None; stdin := None; stdout := Some 4%nat; stderr := None |}.

(** An object of a class with a [__str__] of its own, and one of a class
    without. *)
Definition demo_stringable : value :=
  VObj {| ob_type := {| tp_name := "StringableType"; tp_str := true |};
          ob_bool := true; ob_state := "foo" |}.

Definition demo_unstringable : value :=
  VObj {| ob_type := {| tp_name := "UnstringableType"; tp_str := false |};
          ob_bool := true; ob_state := "" |}.

(** ** The module *)

Section Host.

(** The interpreter's [str(obj)]. *)
Variable str : value → string.

(** Whether [bool], [int] and [float] have a [__str__] of their own, as
    in CPython before 3.8, or inherit [object.__str__]. *)
Variable numeric_str : bool.

(** [signal.Signals]: the members in order, each a name and a number. *)
Variable Signals : list (string * Z).

(** [errno.EINVAL] and [errno.EPIPE]. *)
Variables EINVAL EPIPE : Z.

(** [subprocess.Popen.__init__], the streams, [Popen.wait] and the clock:
    what each call answers after the calls made so far. *)
Variable host_Popen :
  list event → cmd → gmap string value → exn + popen_attrs.
Variable host_write : list event → stream → bool → input_data → option exn.
Variable host_close : list event → stream → option exn.
Variable host_wait : list event → nat → option float → exn + Z.
Variable host_time : list event → float.

(** *** Argument marshalling *)

(** [type(obj)]. *)
Definition type_of (obj : value) : pytype :=
  match obj with
  | VNone => {| tp_name := "NoneType"; tp_str := false |}
  | VBool _ => {| tp_name := "bool"; tp_str := numeric_str |}
  | VInt _ => {| tp_name := "int"; tp_str := numeric_str |}
  | VFloat _ => {| tp_name := "float"; tp_str := numeric_str |}
  | VStr _ => {| tp_name := "str"; tp_str := true |}
  | VBytes _ => {| tp_name := "bytes"; tp_str := true |}
  | VPathLike _ => {| tp_name := "PathLike"; tp_str := true |}
  | VStream _ => {| tp_name := "TextIOWrapper"; tp_str := false |}
  | VProc _ => {| tp_name := "Process"; tp_str := true |}
  | VObj o => ob_type o
  end.

(** [isinstance(obj, _STR_TYPES)], with the object at its string-like
    type when it holds. *)
Definition isinstance_STR_TYPES (obj : value) : option StrTypes :=
  match obj with
  | VStr s => Some (Text s)
  | VBytes b => Some (Bytes b)
  | VPathLike p => Some (PathLike p)
  | _ => None
  end.

(** [_to_strlike(obj)].  The [str] of the host is a function of the
    object.  The [__str__] of a [Process] is not: it reads the captured
    stream, closes the streams and waits ([Process__str__] below), so
    the conversion of a [Process] is left out of the embedding, and
    ends it with [OutsideSignature]. *)
Definition _to_strlike (obj : value) : exn + StrTypes :=
  match isinstance_STR_TYPES obj with
  | Some s => inr s
  | None =>
      if negb (tp_str (type_of obj)) then
        inl (TypeError ("Object of type '" +:+ tp_name (type_of obj)
                        +:+ "' can't be converted to string"))
      else
        match obj with
        | VProc _ => inl (OutsideSignature "obj")
        | _ => inr (Text (str obj))
        end
  end.

(** The second loop of [_parse]: [for arg in args: yield _to_strlike(arg)]. *)
Fixpoint _parse_args (args : list value) : generator :=
  match args with
  | [] => ([], None)
  | arg :: args' =>
      match _to_strlike arg with
      | inl e => throw e
      | inr s => yield s (_parse_args args')
      end
  end.

(** The first loop of [_parse], over [opts.items()]; [rest] is the part
    of the generator after the loop. *)
Fixpoint _parse_opts (items : list (string * value)) (rest : generator)
  : generator :=
  match items with
  | [] => rest
  | (key, value) :: items' =>
      let key := PyStr.replace "_" "-" key in
      let key :=
        if negb (PyStr.startswith "-" key) then
          if PyStr.len key =? 1 then "-" +:+ key else "--" +:+ key
        else key in
      if is_False value then _parse_opts items' rest
      else if is_True value then yield (Text key) (_parse_opts items' rest)
      else
        yield (Text key)
          match _to_strlike value with
          | inl e => throw e
          | inr s => yield s (_parse_opts items' rest)
          end
  end.

Definition _parse (args : list value) (opts : list (string * value))
  : generator :=
  _parse_opts (PyDict.items opts) (_parse_args args).

Definition _is_reserved (name : string) : bool :=
  PyStr.endswith "_" name && (2 <? PyStr.len name).

(** *** What the spec says of marshalling, to compare [_parse] with *)

(** Underscores to dashes; then, unless the name starts with a dash, one
    dash before a single character and two dashes otherwise. *)
Definition spec_option_name (name : string) : string :=
  let dashed := PyStr.replace "_" "-" name in
  if PyStr.startswith "-" dashed then dashed
  else if decide (String.length dashed = 1%nat) then "-" +:+ dashed
  else "--" +:+ dashed.

(** The tokens of one option: none for [False], the name for [True], the
    name and the string-like form of the value otherwise. *)
Definition spec_option_tokens (name : string) (v : value)
  : exn + list StrTypes :=
  match v with
  | VBool false => inr []
  | VBool true => inr [Text (spec_option_name name)]
  | _ =>
      let? s := _to_strlike v in
      inr [Text (spec_option_name name); s]
  end.

(** The results of [f] on a sequence in order, up to the first failure. *)
Fixpoint each {A B} (f : A → exn + B) (l : list A) : exn + list B :=
  match l with
  | [] => inr []
  | a :: l' =>
      let? b := f a in
      let? bs := each f l' in
      inr (b :: bs)
  end.

(** Named options first, then the positional arguments in their order. *)
Definition spec_marshal (args : list value) (opts : list (string * value))
  : exn + list StrTypes :=
  let? named := each (λ kv, spec_option_tokens kv.1 kv.2) opts in
  let? positional := each _to_strlike args in
  inr (concat named ++ positional).

(** *** [Command] *)

(** [Command(args, opts, **kwargs)]. *)
Definition Command__init__ (args : list StrTypes)
    (opts : option (gmap string value)) (kwargs : gmap string value)
  : Command :=
  {| args_ := args; opts_ := kwargs ∪ default ∅ opts |}.

Definition Command__getattr__ (self : Command) (item : string)
  : exn + Command :=
  if _is_reserved item then inl (AttributeError item)
  else
    inr (Command__init__ (args_ self ++ [Text (PyStr.replace "_" "-" item)])
           (Some (opts_ self)) ∅).

(** [command[index]], for [index] a tuple of items. *)
Definition Command__getitem__ (self : Command) (index : list value)
  : exn + Command :=
  let? index := each _to_strlike index in
  inr (Command__init__ (args_ self ++ index) (Some (opts_ self)) ∅).

(** One turn of the loop of [Command.__call__], on [process_kwargs]
    and [cmd_opts]. *)
Definition route_step (acc : gmap string value * list (string * value))
    (kv : string * value) :=
  if _is_reserved kv.1 then (<[PyStr.drop_last kv.1 := kv.2]> acc.1, acc.2)
  else (acc.1, PyDict.set acc.2 kv.1 kv.2).

(** The loop of [Command.__call__] over [opts.items()]:
    [process_kwargs] and [cmd_opts] after it. *)
Definition route (self : Command) (opts : list (string * value))
  : gmap string value * list (string * value) :=
  fold_left route_step (PyDict.items opts) (opts_ self, []).

(** [Command.__call__] up to its last line: the arguments of the call
    [Process(argv, **process_kwargs)]. *)
Definition call_arguments (self : Command) (args : list value)
    (opts : list (string * value))
  : exn + (cmd * gmap string value) :=
  let process_kwargs := (route self opts).1 in
  let cmd_opts := (route self opts).2 in
  let? marshalled := tuple (_parse args cmd_opts) in
  let argv := args_ self ++ marshalled in
  let process_kwargs := setdefault "wait" (VBool true) process_kwargs in
  inr (CmdSeq argv, process_kwargs).

(** *** The error taxonomy *)

(** [{signal.name: -signal for signal in signal.Signals}]. *)
Definition _SIGNAL_CODES : list (string * Z) :=
  PyDict.comprehension (λ signal : string * Z, signal.1)
    (λ signal, - signal.2) Signals.

(** [{value: name for name, value in _SIGNAL_CODES.items()}]. *)
Definition _SIGNAL_NAMES : list (Z * string) :=
  PyDict.comprehension (λ item : string * Z, item.2) (λ item, item.1)
    (PyDict.items _SIGNAL_CODES).

(** [isinstance(v, int)]; a [bool] is an [int]. *)
Definition isinstance_int (v : value) : bool :=
  match v with
  | VInt _ | VBool _ => true
  | _ => false
  end.

(** The number an [int] object hashes and compares as. *)
Definition int_key (v : value) : Z :=
  match v with
  | VInt n => n
  | VBool b => Z.b2z b
  | _ => 0
  end.

Definition normalize_code (returncode : value)
  : exn + (value * option string) :=
  match returncode with
  | VStr name =>
      match PyDict.get _SIGNAL_CODES name with
      | Some number => inr (VInt number, Some name)
      | None => inl (ValueError ("Unknown signal " +:+ name))
      end
  | _ =>
      if isinstance_int returncode then
        match PyDict.get _SIGNAL_NAMES (int_key returncode) with
        | Some name => inr (returncode, Some name)
        | None => inr (returncode, None)
        end
      else inl (TypeError "")
  end.

(** [c.__name__]. *)
Definition __name__ (st : kinds) (c : cls) : string :=
  match c with
  | CommandError => "CommandError"
  | Subclass id => default "" (cls_name <$> classes st !! id)
  end.

(** [repr(index)] for a signal name or an [int]. *)
Definition repr_index (index : value) : string :=
  match index with
  | VStr s => "'" +:+ s +:+ "'"
  | VInt n => pretty n
  | VBool true => "True"
  | VBool false => "False"
  | _ => ""
  end.

(** [cls.code(returncode)], on the state of the taxonomy. *)
Definition code (c : cls) (returncode : value) (st : kinds)
  : (exn + cls) * kinds :=
  match normalize_code returncode with
  | inl e => (inl e, st)
  | inr (returncode, signame) =>
      let key := int_key returncode in
      let st :=
        match _subclasses st !! key with
        | Some _ => st
        | None =>
            let index :=
              match signame with
              | Some name => if truthy (VStr name) then VStr name else returncode
              | None => returncode
              end in
            let name := __name__ st c +:+ "[" +:+ repr_index index +:+ "]" in
            let members :=
              {| cls_name := name; cls_base := c;
                 cls_returncode := returncode |} in
            let subclass := Subclass (length (classes st)) in
            {| classes := classes st ++ [members];
               _subclasses := setdefault key subclass (_subclasses st) |}
        end in
      match _subclasses st !! key with
      | Some subclass => (inr subclass, st)
      | None => (inl (HostError "KeyError"), st)
      end
  end.

(** [c(returncode, process)]: [c.__new__], then [__init__] on the new
    object.  The [__new__] of a class made by [code] raises; the one of
    [CommandError] makes an object of the class [code] gives. *)
Definition instantiate (c : cls) (returncode : value) (process : Process)
    (st : kinds)
  : (exn + error_instance) * kinds :=
  match c with
  | Subclass _ =>
      (inl (TypeError "Cannot instantiate CommandError subclasses"), st)
  | CommandError =>
      match code CommandError returncode st with
      | (inl e, st') => (inl e, st')
      | (inr subclass, st') =>
          (inr {| inst_class := subclass;
                  inst_returncode := returncode;
                  inst_process := process |}, st')
      end
  end.

(** [issubclass(c, d)], along the bases; a chain is no longer than the
    classes made. *)
Fixpoint issubclass_along (fuel : nat) (st : kinds) (c d : cls) : bool :=
  if decide (c = d) then true
  else
    match fuel, c with
    | S fuel', Subclass id =>
        match classes st !! id with
        | Some o => issubclass_along fuel' st (cls_base o) d
        | None => false
        end
    | _, _ => false
    end.

Definition issubclass (st : kinds) (c d : cls) : bool :=
  issubclass_along (length (classes st)) st c d.

(** [isinstance(e, c)]; [except c:] catches [e] when it holds. *)
Definition isinstance (st : kinds) (e : error_instance) (c : cls) : bool :=
  issubclass st (inst_class e) c.

(** The lookups [c.code(returncode)] of a list, one after the other. *)
Definition lookups (queries : list (cls * value)) (st : kinds) : kinds :=
  fold_left (λ st q, (code q.1 q.2 st).2) queries st.

(** The taxonomy when the module is loaded. *)
Definition no_kinds : kinds := {| classes := []; _subclasses := ∅ |}.

(** A class that exists in a state of the taxonomy. *)
Definition known (st : kinds) (c : cls) : Prop :=
  match c with
  | CommandError => True
  | Subclass id => (id < length (classes st))%nat
  end.

(** The states the module can be in: the one it is loaded with, and the
    state after a lookup on a class that exists. *)
Inductive reachable : kinds → Prop :=
| reachable_loaded : reachable no_kinds
| reachable_code st c returncode :
    reachable st → known st c → reachable (code c returncode st).2.

(** What holds of every reachable state: a base was made before the
    class, and an entry of [_subclasses] is a made class whose
    [returncode] is the key. *)
Definition consistent (st : kinds) : Prop :=
  (∀ id o, classes st !! id = Some o → known st (cls_base o)
           ∧ ∀ j, cls_base o = Subclass j → (j < id)%nat)
  ∧ (∀ key k, _subclasses st !! key = Some k →
       ∃ id o, k = Subclass id ∧ classes st !! id = Some o
               ∧ int_key (cls_returncode o) = key).

(** *** [Process] *)

Definition os_Popen (args : cmd) (kwargs : gmap string value)
  : M popen_attrs :=
  λ m, (host_Popen (history m) args kwargs, record (EvPopen args kwargs) m).

Definition stream_write (s : stream) (binary : bool) (data : input_data)
  : M unit :=
  λ m, (match host_write (history m) s binary data with
        | Some e => inl e
        | None => inr tt
        end, record (EvWrite s binary data) m).

Definition stream_close (s : stream) : M unit :=
  λ m, (match host_close (history m) s with
        | Some e => inl e
        | None => inr tt
        end, record (EvClose s) m).

(** [subprocess.Popen.wait(self, timeout)]. *)
Definition Popen_wait (self : Process) (timeout : option float) : M Z :=
  λ m, (host_wait (history m) (pid self) timeout,
        record (EvWait (pid self) timeout) m).

Definition _time : M float :=
  λ m, (inr (host_time (history m)), record EvTime m).

Fixpoint wait (self : Process) (timeout : option float) : M Z :=
  match timeout with
  | None =>
      let* _ :=
        match tail self with
        | Some t => let* _ := wait t None in ret tt
        | None => ret tt
        end in
      Popen_wait self None
  | Some timeout =>
      let* orig_time := _time in
      let* _ :=
        match tail self with
        | Some t => let* _ := wait t (Some timeout) in ret tt
        | None => ret tt
        end in
      let* now := _time in
      let rest := (orig_time + timeout - now)%float in
      Popen_wait self (Some rest)
  end.

Definition check_returncode (self : Process) : M unit :=
  let* returncode := wait self None in
  if negb (returncode =? 0) then
    let* e := on_kinds (instantiate CommandError (VInt returncode) self) in
    raise (Raised e)
  else ret tt.

(** [exc.errno not in {errno.EINVAL, errno.EPIPE}]. *)
Definition errno_not_in_pipe_set (errno : option Z) : bool :=
  match errno with
  | Some n => negb ((n =? EINVAL) || (n =? EPIPE))
  | None => true
  end.

(** [Process.__init__] before the process is launched: the checks and
    the rewriting of [args] and [kwargs]. *)
Definition configure (args : cmd) (tail : option Process)
    (input : option input_data) (capture_stdout capture_stderr : bool)
    (kwargs : gmap string value)
  : exn + (cmd * gmap string value) :=
  let args :=
    match args with
    | CmdSeq argv =>
        if truthy (kwargs_get kwargs "shell") then
          CmdStr (Text (PyStr.join " "
                          (map (λ arg, str (value_of_strlike arg)) argv)))
        else args
    | CmdStr _ => args
    end in
  let? kwargs :=
    if negb (is_True (default (VBool true) (kwargs !! "universal_newlines")))
    then inl (ValueError "Can't override universal_newlines")
    else inr (<["universal_newlines" := VBool true]> kwargs) in
  let? kwargs :=
    match tail with
    | Some tail =>
        if negb (is_None (kwargs_get kwargs "stdin")) then
          inl (ValueError "Can't pipe and set stdin at the same time")
        else inr (<["stdin" := value_of_stream (stdout tail)]> kwargs)
    | None => inr kwargs
    end in
  let? kwargs :=
    match input with
    | Some _ =>
        if negb (is_None (kwargs_get kwargs "stdin")) then
          inl (ValueError "Can't input and set stdin at the same time")
        else inr (<["stdin" := PIPE]> kwargs)
    | None => inr kwargs
    end in
  let? kwargs :=
    if capture_stdout then
      if negb (is_None (kwargs_get kwargs "stdout")) then
        inl (ValueError "Can't capture stdout if redirecting it")
      else inr (<["stdout" := PIPE]> kwargs)
    else inr kwargs in
  let? kwargs :=
    if capture_stderr then
      if negb (is_None (kwargs_get kwargs "stderr")) then
        inl (ValueError "Can't capture stderr if redirecting it")
      else inr (<["stderr" := PIPE]> kwargs)
    else inr kwargs in
  inr (args, kwargs).

(** The combinations [configure] refuses: a predecessor or literal
    input together with a [stdin] option, literal input together with a
    predecessor that has an output stream, and the capture of a stream
    together with an option for it. *)
Definition conflicting (tail : option Process) (input : option input_data)
    (capture_stdout capture_stderr : bool) (kwargs : gmap string value)
  : Prop :=
  (is_Some tail ∧ is_None (kwargs_get kwargs "stdin") = false)
  ∨ (is_Some input ∧ is_None (kwargs_get kwargs "stdin") = false)
  ∨ (is_Some input ∧ ∃ t s, tail = Some t ∧ stdout t = Some s)
  ∨ (capture_stdout = true ∧ is_None (kwargs_get kwargs "stdout") = false)
  ∨ (capture_stderr = true ∧ is_None (kwargs_get kwargs "stderr") = false).

(** [super().__init__(args, **kwargs)] and the attributes set after it. *)
Definition launch (args : cmd) (kwargs : gmap string value) (check : bool)
    (tail : option Process)
  : M Process :=
  let* popen := os_Popen args kwargs in
  ret {| pid := p_pid popen;
         args := default args (p_args popen);
         check := check;
         tail := tail;
         stdin :=
           match tail with
           | Some tail => stdin tail
           | None => p_stdin popen
           end;
         stdout := p_stdout popen;
         stderr := p_stderr popen |}.

(** The block [if input is not None:] of [Process.__init__]. *)
Definition write_input (self : Process) (input : option input_data)
  : M unit :=
  match input with
  | None => ret tt
  | Some data =>
      match stdin self with
      | None => raise (TypeError "Couldn't find stdin")
      | Some s =>
          try_finally
            (except_IOError
               (match data with
                | InBytes _ => stream_write s true data
                | InText _ => stream_write s false data
                end)
               (λ errno,
                  if errno_not_in_pipe_set errno then raise (IOError errno)
                  else ret tt))
            (stream_close s)
      end
  end.

(** The block [if wait or timeout is not None:] of [Process.__init__]. *)
Definition initial_wait (self : Process) (wait_ : bool)
    (timeout : option float)
  : M unit :=
  if wait_ || negb (bool_decide (timeout = None)) then
    let* _ :=
      match timeout with
      | Some timeout => wait self (Some timeout)
      | None => wait self None
      end in
    if check self then check_returncode self else ret tt
  else ret tt.

(** [Process.__init__] from the block [if wait or timeout is not None:]
    on. *)
Definition after_input (self : Process) (wait_ : bool)
    (timeout : option float)
  : M Process :=
  let* _ := initial_wait self wait_ timeout in
  ret self.

Definition Process__init__ (args : cmd) (check : bool)
    (tail : option Process) (input : option input_data) (wait_ : bool)
    (timeout : option float) (capture_stdout capture_stderr : bool)
    (kwargs : gmap string value)
  : M Process :=
  match configure args tail input capture_stdout capture_stderr kwargs with
  | inl e => raise e
  | inr (args, kwargs) =>
      let* self := launch args kwargs check tail in
      let* _ := write_input self input in
      after_input self wait_ timeout
  end.

(** The names [Process.__init__] binds itself; every other keyword goes
    to [kwargs]. *)
Definition named_parameters : list string :=
  ["check"; "tail"; "input"; "wait"; "timeout";
   "capture_stdout"; "capture_stderr"].

Definition as_tail (v : value) : exn + option Process :=
  match v with
  | VNone => inr None
  | VProc p => inr (Some p)
  | _ => inl (OutsideSignature "tail")
  end.

Definition as_input (v : value) : exn + option input_data :=
  match v with
  | VNone => inr None
  | VStr s => inr (Some (InText s))
  | VBytes b => inr (Some (InBytes b))
  | _ => inl (OutsideSignature "input")
  end.

Definition as_timeout (v : value) : exn + option float :=
  match v with
  | VNone => inr None
  | VFloat x => inr (Some x)
  | _ => inl (OutsideSignature "timeout")
  end.

(** The call [Process(args, **keywords)]: the keywords bound to the
    parameters of [__init__].  A keyword named as one of the two
    positional parameters, [self] and [args], is a [TypeError] of the
    call (when both are given, the program names the one that comes
    first in the dictionary, the embedding [args]); a value outside the
    declared type of [tail], [input] or [timeout] ends the embedding
    with [OutsideSignature]. *)
Definition Process_call (args : cmd) (keywords : gmap string value)
  : M Process :=
  if bool_decide (is_Some (keywords !! "args")) then
    raise (TypeError "__init__() got multiple values for argument 'args'")
  else if bool_decide (is_Some (keywords !! "self")) then
    raise (TypeError "__init__() got multiple values for argument 'self'")
  else
    match as_tail (kwargs_get keywords "tail"),
          as_input (kwargs_get keywords "input"),
          as_timeout (kwargs_get keywords "timeout") with
    | inr tail, inr input, inr timeout =>
        Process__init__ args
          (truthy (default (VBool true) (keywords !! "check")))
          tail input
          (truthy (default (VBool false) (keywords !! "wait")))
          timeout
          (truthy (default (VBool false) (keywords !! "capture_stdout")))
          (truthy (default (VBool false) (keywords !! "capture_stderr")))
          (foldr delete keywords named_parameters)
    | inl e, _, _ | _, inl e, _ | _, _, inl e => raise e
    end.

Definition Command__call__ (self : Command) (args : list value)
    (opts : list (string * value))
  : M Process :=
  match call_arguments self args opts with
  | inl e => raise e
  | inr (argv, process_kwargs) => Process_call argv process_kwargs
  end.

(** *** The other launch modes of [Command] *)

(** [opts.setdefault(k, v)] on keyword arguments. *)
Definition kw_setdefault (opts : list (string * value)) (k : string)
    (v : value)
  : list (string * value) :=
  match PyDict.get opts k with
  | Some _ => opts
  | None => PyDict.set opts k v
  end.

(** The call of [self] with [args], [stdout_=PIPE] and the keywords
    [opts]: a keyword given twice is a [TypeError] of the call. *)
Definition call_stdout_PIPE (self : Command) (args : list value)
    (opts : list (string * value))
  : M Process :=
  match PyDict.get opts "stdout_" with
  | Some _ =>
      raise (TypeError
               "__call__() got multiple values for keyword argument 'stdout_'")
  | None => Command__call__ self args (("stdout_", PIPE) :: opts)
  end.

Definition pipe_ (self : Command) (args : list value)
    (opts : list (string * value))
  : M Command :=
  let opts := kw_setdefault opts "wait_" (VBool false) in
  let opts := kw_setdefault opts "check_" (VBool false) in
  let* process := call_stdout_PIPE self args opts in
  ret (Command__init__ [] (Some (opts_ self)) {["tail" := VProc process]}).

Definition capture_ (self : Command) (args : list value)
    (opts : list (string * value))
  : M Process :=
  let opts := kw_setdefault opts "wait_" (VBool false) in
  call_stdout_PIPE self args opts.

Definition test_ (self : Command) (args : list value)
    (opts : list (string * value))
  : M Process :=
  let opts := kw_setdefault opts "check_" (VBool false) in
  Command__call__ self args opts.

(** What a call with the keywords [opts] gives [Process] under the
    keyword [k]: the reserved keyword of the call, else the option
    stored in the template, else [True] for [wait]. *)
Definition call_option (self : Command) (opts : list (string * value))
    (k : string)
  : option value :=
  match (if _is_reserved (k +:+ "_") then PyDict.get opts (k +:+ "_")
         else None) with
  | Some v => Some v
  | None =>
      match opts_ self !! k with
      | Some v => Some v
      | None => if decide (k = "wait") then Some (VBool true) else None
      end
  end.

(** A taxonomy in which every class was made by a lookup on
    [CommandError] itself. *)
Definition flat (st : kinds) : Prop :=
  ∀ id o, classes st !! id = Some o → cls_base o = CommandError.

(** *** The message of a [CommandError] *)

(** [returncode in _SIGNAL_NAMES], with the name when it holds.  An
    [int] is looked up; a float or an object of another class could
    compare equal to a key, which leaves the declared type of
    [returncode]; nothing else equals an [int]. *)
Definition signal_name_of (returncode : value) : exn + option string :=
  match returncode with
  | VInt _ | VBool _ => inr (PyDict.get _SIGNAL_NAMES (int_key returncode))
  | VFloat _ | VObj _ => inl (OutsideSignature "returncode")
  | _ => inr None
  end.

Definition CommandError__str__ (self : error_instance) : exn + string :=
  let command :=
    match args (inst_process self) with
    | CmdStr s => str (value_of_strlike s)
    | CmdSeq argv =>
        PyStr.join " " (map (λ arg, str (value_of_strlike arg)) argv)
    end in
  let? signal := signal_name_of (inst_returncode self) in
  let cause :=
    match signal with
    | Some name => name
    | None => "status code " +:+ str (inst_returncode self)
    end in
  inr ("Command '" +:+ command +:+ "' failed with " +:+ cause).

(** *** Streams and cleanup of a [Process] *)

(** The property [captured]; a stream object is true in a condition. *)
Definition captured (self : Process) : exn + stream :=
  match stdout self, stderr self with
  | Some _, Some _ =>
      inl (AttributeError
             ("Capturing both stdout and stderr, use "
              +:+ ".stdout and .stderr directly instead"))
  | Some s, None => inr s
  | None, Some s => inr s
  | None, None => inl (AttributeError "Not capturing any output")
  end.

(** [for stream in streams: if stream: stream.close()]. *)
Fixpoint close_each (streams : list (option stream)) : M unit :=
  match streams with
  | [] => ret tt
  | Some s :: streams' => let* _ := stream_close s in close_each streams'
  | None :: streams' => close_each streams'
  end.

(** [Process.__exit__(type, value, traceback)]; the three arguments only
    go on to the [__exit__] of the predecessor. *)
Fixpoint Process__exit__ (self : Process) : M bool :=
  let* _ :=
    try_finally
      (let* _ :=
         match tail self with
         | Some t => let* _ := Process__exit__ t in ret tt
         | None => ret tt
         end in
       close_each [stdout self; stderr self; stdin self])
      (let* _ := wait self None in ret tt) in
  let* _ := if check self then check_returncode self else ret tt in
  ret false.

(** [with self: body]: [__enter__] gives [self], and [__exit__] runs
    after the body whatever it did; it returns [False], so an exception
    of the body goes on, unless [__exit__] raises itself. *)
Definition with_Process {A} (self : Process) (body : M A) : M A :=
  try_finally body (let* _ := Process__exit__ self in ret tt).

(** [Process.__str__] and [Process.__bytes__]: [with self:] around a
    read of the captured stream; [read] is [stream.read()] for the one
    and [stream.buffer.read()] for the other. *)
Definition Process__str__ {A} (read : stream → M A) (self : Process)
  : M A :=
  with_Process self
    (match captured self with
     | inl e => raise e
     | inr s => read s
     end).

(** The processes of a pipeline, from its head to [self]. *)
Fixpoint chain (self : Process) : list Process :=
  match tail self with
  | Some t => chain t
  | None => []
  end ++ [self].

(** The processes a list of calls into the host waits on, in order. *)
Definition waited (calls : list event) : list nat :=
  omap (λ ev, match ev with EvWait p _ => Some p | _ => None end) calls.

(** Calls that are clock readings or waits. *)
Definition only_waits (calls : list event) : Prop :=
  Forall (λ ev, match ev with EvWait _ _ | EvTime => True | _ => False end)
    calls.


(** The calls into the host of [m'] go on from those of [m]. *)
Definition extends (m m' : machine) : Prop :=
  ∃ later, history m' = history m ++ later.

(** ** Properties *)

(** *** Generators and strings *)

Lemma tuple_yield (s : StrTypes) (g : generator) :
  tuple (yield s g) = (let? l := tuple g in inr (s :: l)).
Proof. destruct g as [l [e|]]; reflexivity. Qed.

Lemma tuple_throw (e : exn) : tuple (throw e) = inl e.
Proof. reflexivity. Qed.

Lemma length_replace (old new : ascii) (s : string) :
  String.length (PyStr.replace old new s) = String.length s.
Proof. induction s as [|c s IH]; simpl; congruence. Qed.

(** No character [old] is left by [replace old new], for [new ≠ old]. *)
Lemma replace_removes (old new : ascii) (s : string) (i : nat) :
  new ≠ old → String.get i (PyStr.replace old new s) ≠ Some old.
Proof.
  intros Hne. revert i. induction s as [|c s IH]; intros i; simpl.
  - discriminate.
  - destruct i as [|i]; [|apply IH].
    destruct (Ascii.eqb_spec c old); congruence.
Qed.

Lemma option_name_parse (key : string) :
  (let key := PyStr.replace "_" "-" key in
   if negb (PyStr.startswith "-" key) then
     if PyStr.len key =? 1 then "-" +:+ key else "--" +:+ key
   else key) = spec_option_name key.
Proof.
  unfold spec_option_name, PyStr.len. cbv zeta.
  destruct (PyStr.startswith "-" (PyStr.replace "_" "-" key)); simpl; [done|].
  destruct (Z.eqb_spec (Z.of_nat (String.length (PyStr.replace "_" "-" key))) 1);
    case_decide; first [done | lia].
Qed.

Lemma tuple_parse_args (args : list value) :
  tuple (_parse_args args) = each _to_strlike args.
Proof.
  induction args as [|arg args IH]; [done|]. simpl.
  destruct (_to_strlike arg) as [e|s]; [done|].
  rewrite tuple_yield, IH. reflexivity.
Qed.

Lemma tuple_parse_opts (items : list (string * value)) (rest : generator) :
  tuple (_parse_opts items rest) =
  (let? named := each (λ kv, spec_option_tokens kv.1 kv.2) items in
   let? positional := tuple rest in
   inr (concat named ++ positional)).
Proof.
  induction items as [|[key v] items IH].
  - simpl. destruct (tuple rest); reflexivity.
  - cbn [_parse_opts each fst snd]. rewrite option_name_parse.
    assert (Hrest :
      tuple (yield (Text (spec_option_name key))
               match _to_strlike v with
               | inl e => throw e
               | inr s => yield s (_parse_opts items rest)
               end) =
      (let? toks := (let? s := _to_strlike v in
                     inr [Text (spec_option_name key); s]) in
       let? bs := each (λ kv, spec_option_tokens kv.1 kv.2) items in
       let? positional := tuple rest in
       inr (concat (toks :: bs) ++ positional))).
    { rewrite tuple_yield. destruct (_to_strlike v) as [e|s]; [done|].
      rewrite tuple_yield, IH. simpl.
      destruct (each _ items) as [e|bs]; [done|]. simpl.
      destruct (tuple rest); reflexivity. }
    assert (Hassoc : ∀ (c : exn + list StrTypes),
      (let? named := (let? b := c in
                      let? bs := each (λ kv, spec_option_tokens kv.1 kv.2) items in
                      inr (b :: bs)) in
       let? positional := tuple rest in
       inr (concat named ++ positional)) =
      (let? toks := c in
       let? bs := each (λ kv, spec_option_tokens kv.1 kv.2) items in
       let? positional := tuple rest in
       inr (concat (toks :: bs) ++ positional))).
    { intros [e|b]; [done|]. simpl. destruct (each _ items); reflexivity. }
    rewrite Hassoc.
    destruct v as [|[|]| | | | | | | |]; cbn [is_False is_True spec_option_tokens];
      try exact Hrest.
    + rewrite tuple_yield, IH. simpl.
      destruct (each _ items) as [e|bs]; [done|]. simpl.
      destruct (tuple rest); reflexivity.
    + rewrite IH. simpl.
      destruct (each _ items) as [e|bs]; [done|]. simpl.
      destruct (tuple rest); reflexivity.
Qed.

(** C1.  Marshalling emits the tokens of the named options, in the order
    of the mapping, and then the string-like forms of the positional
    arguments in their order; the tokens of an option are those of
    [spec_option_tokens]: none for [False], the transformed name for
    [True], the transformed name and the string-like form of the value
    otherwise, the name transformed as [spec_option_name] says
    (underscores to dashes, then one dash before a single character and
    two before any other name that does not start with a dash).  A value
    without string-like form ends the marshalling with its error. *)
Theorem parse_marshals (args : list value) (opts : list (string * value)) :
  tuple (_parse args opts) = spec_marshal args opts.
Proof.
  unfold _parse, spec_marshal, PyDict.items.
  rewrite tuple_parse_opts, tuple_parse_args. reflexivity.
Qed.


(** *** The error taxonomy *)

Lemma code_unfold (c : cls) (v : value) (st : kinds) rv sn :
  normalize_code v = inr (rv, sn) →
  ∃ name,
    code c v st =
    match _subclasses st !! int_key rv with
    | Some k => (inr k, st)
    | None =>
        let k := Subclass (length (classes st)) in
        (inr k,
         {| classes := classes st ++
              [{| cls_name := name; cls_base := c; cls_returncode := rv |}];
            _subclasses := <[int_key rv := k]> (_subclasses st) |})
    end.
Proof.
  intros Hn. unfold code. rewrite Hn.
  destruct (_subclasses st !! int_key rv) as [k|] eqn:Hk.
  - exists "". rewrite Hk. reflexivity.
  - eexists. unfold setdefault. rewrite Hk. cbn [_subclasses].
    rewrite lookup_insert_eq. reflexivity.
Qed.

Lemma code_fails (c : cls) (v : value) (st : kinds) e :
  normalize_code v = inl e → code c v st = (inl e, st).
Proof. intros Hn. unfold code. rewrite Hn. reflexivity. Qed.

(** A lookup keeps every entry of the memo. *)
Lemma code_keeps (c : cls) (v : value) (st : kinds) key k :
  _subclasses st !! key = Some k →
  _subclasses (code c v st).2 !! key = Some k.
Proof.
  intros Hk. destruct (normalize_code v) as [e|[rv sn]] eqn:Hn.
  - rewrite (code_fails _ _ _ _ Hn). exact Hk.
  - destruct (code_unfold c v st rv sn Hn) as [name ->].
    destruct (_subclasses st !! int_key rv) as [k'|] eqn:Hrv; [exact Hk|].
    cbn. rewrite lookup_insert_ne; [exact Hk|]. congruence.
Qed.

Lemma lookups_keep (queries : list (cls * value)) (st : kinds) key k :
  _subclasses st !! key = Some k →
  _subclasses (lookups queries st) !! key = Some k.
Proof.
  revert st. induction queries as [|q queries IH]; intros st Hk; [exact Hk|].
  apply IH, code_keeps, Hk.
Qed.

(** A lookup that returns a class leaves it in the memo under its key. *)
Lemma code_memo (c : cls) (v : value) (st : kinds) rv sn :
  normalize_code v = inr (rv, sn) →
  ∃ k, code c v st = (inr k, (code c v st).2)
       ∧ _subclasses (code c v st).2 !! int_key rv = Some k.
Proof.
  intros Hn. destruct (code_unfold c v st rv sn Hn) as [name ->].
  destruct (_subclasses st !! int_key rv) as [k|] eqn:Hk.
  - exists k. split; [reflexivity|exact Hk].
  - eexists. split; [reflexivity|]. cbn. apply lookup_insert_eq.
Qed.

(** A lookup of a key in the memo returns the entry. *)
Lemma code_hit (c : cls) (v : value) (st : kinds) rv sn k :
  normalize_code v = inr (rv, sn) →
  _subclasses st !! int_key rv = Some k →
  code c v st = (inr k, st).
Proof.
  intros Hn Hk. destruct (code_unfold c v st rv sn Hn) as [name ->].
  rewrite Hk. reflexivity.
Qed.

Lemma normalize_int (n : Z) :
  ∃ sn, normalize_code (VInt n) = inr (VInt n, sn).
Proof.
  unfold normalize_code. cbn [isinstance_int int_key].
  destruct (PyDict.get _SIGNAL_NAMES n); eauto.
Qed.

Lemma normalize_name (name : string) (number : Z) :
  PyDict.get _SIGNAL_CODES name = Some number →
  normalize_code (VStr name) = inr (VInt number, Some name).
Proof. intros H. unfold normalize_code. rewrite H. reflexivity. Qed.

(** Two lookups whose codes normalize to the same number give the same
    class, whatever is looked up in between and on whatever class. *)
Lemma code_same_key (c c' : cls) (v v' : value) (st : kinds)
    (queries : list (cls * value)) rv sn rv' sn' :
  normalize_code v = inr (rv, sn) →
  normalize_code v' = inr (rv', sn') →
  int_key rv = int_key rv' →
  ∃ k st', code c v st = (inr k, st')
           ∧ (code c' v' (lookups queries st')).1 = inr k.
Proof.
  intros Hn Hn' Hkey.
  destruct (code_memo c v st rv sn Hn) as (k & Hcode & Hk).
  exists k, (code c v st).2. split; [exact Hcode|].
  rewrite (code_hit c' v' _ rv' sn' k Hn'); [reflexivity|].
  rewrite <- Hkey. apply lookups_keep, Hk.
Qed.


(** *** Dictionaries in insertion order *)

Lemma dict_set_fresh {K V} `{EqDecision K} (d : list (K * V)) k v :
  k ∉ d.*1 → PyDict.set d k v = d ++ [(k, v)].
Proof.
  induction d as [|[k' v'] d IH]; intros Hk; [done|]. simpl.
  rewrite fmap_cons, not_elem_of_cons in Hk. destruct Hk as [Hne Hk].
  simpl in Hne. case_decide; [congruence|]. rewrite IH by done. reflexivity.
Qed.

Lemma dict_get_elem {K V} `{EqDecision K} (d : list (K * V)) k v :
  NoDup d.*1 → (k, v) ∈ d → PyDict.get d k = Some v.
Proof.
  induction d as [|[k' v'] d IH]; intros Hnd Hin.
  - by apply elem_of_nil in Hin.
  - rewrite fmap_cons in Hnd. apply NoDup_cons in Hnd as [Hk' Hnd].
    apply elem_of_cons in Hin as [Heq|Hin]; simpl.
    + injection Heq as <- <-. by rewrite decide_True.
    + rewrite decide_False; [by apply IH|].
      intros ->. apply Hk'. apply list_elem_of_fmap. by exists (k, v).
Qed.

Lemma dict_get_None {K V} `{EqDecision K} (d : list (K * V)) k :
  k ∉ d.*1 → PyDict.get d k = None.
Proof.
  induction d as [|[k' v'] d IH]; intros Hk; [done|]. simpl.
  rewrite fmap_cons, not_elem_of_cons in Hk. destruct Hk as [Hne Hk].
  simpl in Hne. rewrite decide_False by congruence. by apply IH.
Qed.

(** A comprehension over items with distinct keys lists them in order. *)
Lemma comprehension_distinct {K V X} `{EqDecision K}
    (key : X → K) (val : X → V) (xs : list X) (d : list (K * V)) :
  NoDup (key <$> xs) → (∀ x, x ∈ xs → key x ∉ d.*1) →
  fold_left (λ d x, PyDict.set d (key x) (val x)) xs d
  = d ++ ((λ x, (key x, val x)) <$> xs).
Proof.
  revert d. induction xs as [|x xs IH]; intros d Hnd Hfresh; simpl.
  - by rewrite app_nil_r.
  - rewrite fmap_cons in Hnd. apply NoDup_cons in Hnd as [Hx Hnd].
    rewrite dict_set_fresh by (apply Hfresh; left).
    rewrite IH; [by rewrite <- app_assoc|done|].
    intros y Hy. rewrite fmap_app, elem_of_app. intros [Hin|Hin].
    + by apply (Hfresh y); [right|].
    + simpl in Hin. apply list_elem_of_singleton in Hin.
      apply Hx. rewrite <- Hin. apply list_elem_of_fmap. by exists y.
Qed.

(** With distinct names in the host's enumeration, the table gives a
    name the negative of its number. *)
Lemma signal_code (name : string) (signum : Z) :
  NoDup Signals.*1 → (name, signum) ∈ Signals →
  PyDict.get _SIGNAL_CODES name = Some (- signum).
Proof.
  intros Hnd Hin. unfold _SIGNAL_CODES, PyDict.comprehension.
  rewrite comprehension_distinct; [|done|].
  - simpl. apply dict_get_elem.
    + rewrite <- list_fmap_compose. exact Hnd.
    + apply list_elem_of_fmap. by exists (name, signum).
  - intros x _. simpl. apply not_elem_of_nil.
Qed.

(** C2.  With distinct names in the host's enumeration of signals: a
    lookup by number returns a class, and so does a lookup by the name
    of a signal of the enumeration; a later lookup of the same code,
    whatever was looked up in between and on whatever class, returns
    the same class object; and the lookup by the name of a signal and
    the lookup by the negative of its number return the same class
    object, in either order. *)
Theorem kind_identity (st : kinds) (c c' : cls)
    (queries : list (cls * value)) (n : Z) (name : string) (signum : Z) :
  NoDup Signals.*1 → (name, signum) ∈ Signals →
  (∃ k st', code c (VInt n) st = (inr k, st')
            ∧ (code c' (VInt n) (lookups queries st')).1 = inr k)
  ∧ (∃ k st', code c (VStr name) st = (inr k, st')
              ∧ (code c' (VStr name) (lookups queries st')).1 = inr k
              ∧ (code c' (VInt (- signum)) (lookups queries st')).1 = inr k)
  ∧ (∃ k st', code c (VInt (- signum)) st = (inr k, st')
              ∧ (code c' (VStr name) (lookups queries st')).1 = inr k).
Proof.
  intros Hnd Hin. pose proof (signal_code name signum Hnd Hin) as Hname.
  destruct (normalize_int n) as [sn Hn].
  destruct (normalize_int (- signum)) as [sn' Hnumber].
  pose proof (normalize_name name (- signum) Hname) as Hs.
  split; [|split].
  - eapply code_same_key; eauto.
  - destruct (code_memo c (VStr name) st _ _ Hs) as (k & Hcode & Hk).
    exists k, (code c (VStr name) st).2. split; [exact Hcode|].
    split.
    + rewrite (code_hit c' (VStr name) _ _ _ k Hs); [reflexivity|].
      apply lookups_keep, Hk.
    + rewrite (code_hit c' (VInt (- signum)) _ _ _ k Hnumber);
        [reflexivity|].
      apply lookups_keep, Hk.
  - eapply code_same_key; eauto.
Qed.

(** *** Routing of keyword arguments *)

Lemma drop_last_app (k : string) : PyStr.drop_last (k +:+ "_") = k.
Proof.
  induction k as [|c k IH]; [done|]. simpl.
  destruct (k +:+ "_") eqn:E.
  - destruct k; discriminate.
  - rewrite IH. reflexivity.
Qed.

Lemma endswith_drop_last (s : string) :
  PyStr.endswith "_" s = true → s = PyStr.drop_last s +:+ "_".
Proof.
  induction s as [|c s IH]; [done|]. simpl.
  destruct s as [|c' s'].
  - destruct (Ascii.eqb_spec c "_"); [by subst|done].
  - intros H.
    change (String c (String c' s')
            = String c (PyStr.drop_last (String c' s') +:+ "_")).
    f_equal. apply IH. exact H.
Qed.

Lemma reserved_name (name : string) :
  _is_reserved name = true → name = PyStr.drop_last name +:+ "_".
Proof.
  unfold _is_reserved. intros [H _]%andb_true_iff.
  by apply endswith_drop_last.
Qed.

Lemma route_process_kwargs (opts : list (string * value))
    (acc : gmap string value * list (string * value)) (k : string) :
  NoDup opts.*1 →
  (fold_left route_step opts acc).1 !! k =
  match (if _is_reserved (k +:+ "_") then PyDict.get opts (k +:+ "_")
         else None) with
  | Some v => Some v
  | None => acc.1 !! k
  end.
Proof.
  revert acc. induction opts as [|[key v] opts IH]; intros acc Hnd.
  - simpl. by destruct (_is_reserved _).
  - rewrite fmap_cons in Hnd. apply NoDup_cons in Hnd as [Hkey Hnd].
    cbn [fold_left]. rewrite IH by done. cbn [PyDict.get].
    unfold route_step. cbn [fst snd].
    destruct (decide (key = k +:+ "_")) as [->|Hne].
    + destruct (_is_reserved (k +:+ "_")) eqn:Hres; [|done].
      rewrite dict_get_None by done. cbn [fst].
      by rewrite drop_last_app, lookup_insert_eq.
    + destruct (_is_reserved key) eqn:Hres; [|done]. cbn [fst].
      rewrite lookup_insert_ne; [done|].
      intros Heq. apply Hne. rewrite (reserved_name key Hres).
      by rewrite Heq.
Qed.

Lemma route_cmd_opts (opts : list (string * value))
    (acc : gmap string value * list (string * value)) :
  NoDup opts.*1 → (∀ kv, kv ∈ opts → kv.1 ∉ acc.2.*1) →
  (fold_left route_step opts acc).2 =
  acc.2 ++ filter (λ kv, _is_reserved kv.1 = false) opts.
Proof.
  revert acc. induction opts as [|[key v] opts IH]; intros acc Hnd Hfresh.
  - simpl. by rewrite app_nil_r.
  - rewrite fmap_cons in Hnd. apply NoDup_cons in Hnd as [Hkey Hnd].
    cbn [fold_left]. rewrite filter_cons. unfold route_step at 2.
    cbn [fst snd]. destruct (_is_reserved key) eqn:Hres.
    + rewrite IH; [|done|].
      * by rewrite decide_False.
      * intros kv Hkv. cbn [snd]. apply Hfresh. by right.
    + rewrite decide_True by done. rewrite IH; [|done|].
      * cbn [snd]. rewrite dict_set_fresh; [by rewrite <- app_assoc|].
        apply (Hfresh (key, v)). by left.
      * intros kv Hkv. cbn [snd].
        rewrite dict_set_fresh by (apply (Hfresh (key, v)); by left).
        rewrite fmap_app, elem_of_app. intros [Hin|Hin].
        -- by apply (Hfresh kv); [right|].
        -- simpl in Hin. apply list_elem_of_singleton in Hin.
           apply Hkey. rewrite <- Hin. apply list_elem_of_fmap. by exists kv.
Qed.

(** C3 (amended).  In a call with keyword arguments of distinct names,
    the keyword arguments whose name is reserved (ends in an underscore
    and is longer than two characters) go to the construction of the
    Process, under the name without its last character, over the
    options stored in the template; every other keyword argument goes
    to the marshaller with the positional arguments, in the order
    given.  The argv is the tokens of the template followed by the
    marshalled ones, and [wait] is [True] unless the call or the
    template sets it. *)
Theorem call_routes (self : Command) (args : list value)
    (opts : list (string * value)) :
  NoDup opts.*1 →
  ∃ process_kwargs : gmap string value,
    Command__call__ self args opts =
      match tuple (_parse args
                     (filter (λ kv, _is_reserved kv.1 = false) opts)) with
      | inl e => raise e
      | inr marshalled =>
          Process_call (CmdSeq (args_ self ++ marshalled)) process_kwargs
      end
    ∧ (∀ name v, (name, v) ∈ opts → _is_reserved name = true →
         name = PyStr.drop_last name +:+ "_"
         ∧ process_kwargs !! PyStr.drop_last name = Some v)
    ∧ (∀ k, process_kwargs !! k =
         match (if _is_reserved (k +:+ "_")
                then PyDict.get opts (k +:+ "_") else None) with
         | Some v => Some v
         | None =>
             match opts_ self !! k with
             | Some v => Some v
             | None => if decide (k = "wait") then Some (VBool true) else None
             end
         end).
Proof.
  intros Hnd.
  assert (Hpk : ∀ k, setdefault "wait" (VBool true) (route self opts).1 !! k =
         match (if _is_reserved (k +:+ "_")
                then PyDict.get opts (k +:+ "_") else None) with
         | Some v => Some v
         | None =>
             match opts_ self !! k with
             | Some v => Some v
             | None => if decide (k = "wait") then Some (VBool true) else None
             end
         end).
  { intros k. unfold setdefault.
    pose proof (route_process_kwargs opts (opts_ self, []) k Hnd) as Hk.
    pose proof (route_process_kwargs opts (opts_ self, []) "wait" Hnd) as Hw.
    unfold route, PyDict.items. cbn [fst] in Hk, Hw.
    destruct ((fold_left route_step opts (opts_ self, [])).1 !! "wait")
      as [w|] eqn:Ew.
    - rewrite Hk. destruct (decide (k = "wait")) as [->|Hne].
      + destruct (if _is_reserved ("wait" +:+ "_") then _ else _);
          [done|]. by rewrite <- Hw.
      + destruct (if _is_reserved (k +:+ "_") then _ else _); [done|].
        by destruct (opts_ self !! k).
    - destruct (decide (k = "wait")) as [->|Hne].
      + rewrite lookup_insert_eq.
        destruct (if _is_reserved ("wait" +:+ "_") then _ else _);
          [done|]. by rewrite <- Hw.
      + rewrite lookup_insert_ne by done. rewrite Hk.
        destruct (if _is_reserved (k +:+ "_") then _ else _); [done|].
        by destruct (opts_ self !! k). }
  exists (setdefault "wait" (VBool true) (route self opts).1).
  split; [|split].
  - unfold Command__call__, call_arguments.
    assert ((route self opts).2
            = filter (λ kv, _is_reserved kv.1 = false) opts) as ->.
    { unfold route, PyDict.items.
      rewrite route_cmd_opts; [done|done|].
      intros kv _. apply not_elem_of_nil. }
    by destruct (tuple _).
  - intros name v Hin Hres. pose proof (reserved_name name Hres) as Hname.
    split; [done|]. rewrite Hpk. rewrite <- Hname, Hres.
    by rewrite (dict_get_elem opts name v Hnd Hin).
  - exact Hpk.
Qed.

(** *** The classes of the taxonomy *)

Lemma known_grows (st : kinds) (c : cls) (o : class_object)
    (memo : gmap Z cls) :
  known st c →
  known {| classes := classes st ++ [o]; _subclasses := memo |} c.
Proof.
  destruct c as [|id]; [done|]. simpl. rewrite length_app. simpl. lia.
Qed.

Lemma code_consistent (c : cls) (v : value) (st : kinds) :
  consistent st → known st c → consistent (code c v st).2.
Proof.
  intros [Hbase Hmemo] Hc.
  destruct (normalize_code v) as [e|[rv sn]] eqn:Hn.
  { rewrite (code_fails _ _ _ _ Hn). by split. }
  destruct (code_unfold c v st rv sn Hn) as [name ->].
  destruct (_subclasses st !! int_key rv) as [k|] eqn:Hk; [by split|].
  cbn [snd]. split.
  - intros id o Hid. cbn [classes] in Hid.
    destruct (decide (id < length (classes st))%nat) as [Hlt|Hge].
    + rewrite lookup_app_l in Hid by done.
      destruct (Hbase id o Hid) as [Hknown Hlower].
      split; [by apply known_grows|done].
    + rewrite lookup_app_r in Hid by lia.
      destruct (id - length (classes st))%nat as [|i] eqn:Hi; [|done].
      injection Hid as <-. cbn [cls_base].
      split; [by apply known_grows|].
      intros j ->. simpl in Hc. lia.
  - intros key k Hkey. cbn [_subclasses classes] in *.
    destruct (decide (int_key rv = key)) as [<-|Hne].
    + rewrite lookup_insert_eq in Hkey. injection Hkey as <-.
      eexists _, _. split; [done|]. split.
      * rewrite lookup_app_r by lia. by rewrite Nat.sub_diag.
      * done.
    + rewrite lookup_insert_ne in Hkey by done.
      destruct (Hmemo key k Hkey) as (id & o & -> & Hid & Ho).
      exists id, o. split; [done|]. split; [|done].
      rewrite lookup_app_l; [done|]. by eapply lookup_lt_Some.
Qed.

Lemma reachable_consistent (st : kinds) : reachable st → consistent st.
Proof.
  induction 1 as [|st c v _ IH Hc].
  - split; [intros id o H|intros key k H]; simpl in H.
    + by rewrite lookup_nil in H.
    + by rewrite lookup_empty in H.
  - by apply code_consistent.
Qed.

(** Every class made is a descendant of [CommandError]. *)
Lemma made_issubclass (st : kinds) (fuel id : nat) :
  consistent st → (id < length (classes st))%nat → (id < fuel)%nat →
  issubclass_along fuel st (Subclass id) CommandError = true.
Proof.
  intros [Hbase _]. revert id.
  induction fuel as [|fuel IH]; intros id Hid Hfuel; [lia|].
  cbn [issubclass_along]. rewrite decide_False by done.
  destruct (lookup_lt_is_Some_2 _ _ Hid) as [o Ho]. rewrite Ho.
  destruct (Hbase id o Ho) as [Hknown Hlower].
  destruct (cls_base o) as [|j] eqn:Hb.
  - destruct fuel; by cbn; rewrite decide_True.
  - specialize (Hlower j eq_refl). apply IH; [exact Hknown|lia].
Qed.

Lemma known_issubclass (st : kinds) (c : cls) :
  consistent st → known st c → issubclass st c CommandError = true.
Proof.
  intros Hst Hc. unfold issubclass. destruct c as [|id].
  - destruct (length (classes st)); by cbn; rewrite decide_True.
  - by apply made_issubclass.
Qed.

(** C5.  In every state the module can be in, constructing
    [CommandError] with an exit code gives an instance of the class
    that the lookup of the code gives (and leaves the taxonomy as the
    lookup does); this class is one made for the code, its [returncode]
    is the code, and it is a descendant of [CommandError].  Every
    instance of a class of the taxonomy is an instance of
    [CommandError]. *)
Theorem base_constructs_specific (st : kinds) (n : Z) (process : Process) :
  reachable st →
  ∃ k st' id o,
    code CommandError (VInt n) st = (inr k, st')
    ∧ instantiate CommandError (VInt n) process st =
        (inr {| inst_class := k; inst_returncode := VInt n;
                inst_process := process |}, st')
    ∧ k = Subclass id ∧ classes st' !! id = Some o
    ∧ int_key (cls_returncode o) = n
    ∧ issubclass st' k CommandError = true
    ∧ ∀ e, known st' (inst_class e) → isinstance st' e CommandError = true.
Proof.
  intros Hreach.
  assert (Hst' : reachable (code CommandError (VInt n) st).2)
    by (by constructor).
  apply reachable_consistent in Hst'.
  destruct (normalize_int n) as [sn Hn].
  destruct (code_memo CommandError (VInt n) st _ _ Hn) as (k & Hcode & Hk).
  destruct Hst' as [Hbase Hmemo].
  destruct (Hmemo _ _ Hk) as (id & o & -> & Hid & Ho).
  exists (Subclass id), (code CommandError (VInt n) st).2, id, o.
  split; [exact Hcode|]. split.
  { unfold instantiate. by rewrite Hcode. }
  split; [done|]. split; [done|]. split.
  { exact Ho. }
  split.
  - apply known_issubclass; [by split|]. by eapply lookup_lt_Some.
  - intros e He. by apply known_issubclass.
Qed.

(** C6 (amended).  A class that a lookup returns, in any state the
    module can be in, cannot be instantiated: the attempt fails with a
    type error and leaves the taxonomy as it is.  [CommandError] itself
    can: in that state, instantiating it with an [int] raises nothing
    and gives an instance, with that code, of the class that the lookup
    of the code gives, which is a class made by [code]. *)
Theorem specific_kind_not_instantiable (st : kinds) (c : cls)
    (looked_up : value) (k : cls) (st' : kinds)
    (returncode : value) (process : Process) :
  reachable st → known st c →
  code c looked_up st = (inr k, st') →
  instantiate k returncode process st' =
    (inl (TypeError "Cannot instantiate CommandError subclasses"), st')
  ∧ ∀ (n : Z) (process' : Process),
      ∃ id st1,
        code CommandError (VInt n) st' = (inr (Subclass id), st1)
        ∧ instantiate CommandError (VInt n) process' st'
          = (inr {| inst_class := Subclass id; inst_returncode := VInt n;
                    inst_process := process' |}, st1).
Proof.
  intros Hreach Hc Hcode.
  assert (Hreach' : reachable st').
  { replace st' with (code c looked_up st).2 by (by rewrite Hcode).
    by constructor. }
  split.
  - assert (Hst' : consistent (code c looked_up st).2)
      by (by apply reachable_consistent; constructor).
    destruct (normalize_code looked_up) as [e|[rv sn]] eqn:Hn.
    { rewrite (code_fails _ _ _ _ Hn) in Hcode. discriminate. }
    destruct (code_memo c looked_up st _ _ Hn) as (k' & Hcode' & Hk).
    rewrite Hcode in Hcode', Hk, Hst'. injection Hcode' as <-.
    cbn in Hk, Hst'. destruct Hst' as [_ Hmemo].
    destruct (Hmemo _ _ Hk) as (id & o & -> & _). reflexivity.
  - intros n process'.
    assert (Hst1 : consistent (code CommandError (VInt n) st').2)
      by (apply reachable_consistent; by constructor).
    destruct (normalize_int n) as [sn Hn].
    destruct (code_memo CommandError (VInt n) st' _ _ Hn)
      as (kn & Hcoden & Hkn).
    destruct Hst1 as [_ Hmemo].
    destruct (Hmemo _ _ Hkn) as (id & o & -> & _).
    exists id, (code CommandError (VInt n) st').2.
    split; [exact Hcoden|]. unfold instantiate. by rewrite Hcoden.
Qed.

(** *** Construction of a [Process] *)

Lemma kwargs_get_insert_eq (kwargs : gmap string value) k v :
  kwargs_get (<[k:=v]> kwargs) k = v.
Proof. unfold kwargs_get. by rewrite lookup_insert_eq. Qed.

Lemma kwargs_get_insert_ne (kwargs : gmap string value) k k' v :
  k ≠ k' → kwargs_get (<[k:=v]> kwargs) k' = kwargs_get kwargs k'.
Proof. intros. unfold kwargs_get. by rewrite lookup_insert_ne. Qed.

Lemma configure_conflicting (args : cmd) (tail : option Process)
    (input : option input_data) (capture_stdout capture_stderr : bool)
    (kwargs : gmap string value) :
  conflicting tail input capture_stdout capture_stderr kwargs →
  ∃ msg,
    configure args tail input capture_stdout capture_stderr kwargs
    = inl (ValueError msg).
Proof.
  intros Hc. unfold configure.
  destruct (negb (is_True (default (VBool true)
                             (kwargs !! "universal_newlines")))); [eauto|].
  cbn [bind_exn].
  destruct tail as [t|]; [destruct (stdout t) as [s|] eqn:Es|].
  all: destruct (is_None (kwargs_get kwargs "stdin")) eqn:Ein,
           (is_None (kwargs_get kwargs "stdout")) eqn:Eout,
           (is_None (kwargs_get kwargs "stderr")) eqn:Eerr,
           input as [d|], capture_stdout, capture_stderr;
    repeat first
      [ rewrite kwargs_get_insert_ne by done
      | rewrite kwargs_get_insert_eq
      | rewrite Ein | rewrite Eout | rewrite Eerr
      | progress cbn [bind_exn negb is_None PIPE value_of_stream] ];
    eauto.
  all: exfalso;
    destruct Hc as [[Hs H]|[[Hs H]|[[Hs (t' & s' & Ht & Hst)]|[[? H]|[? H]]]]];
    try destruct Hs as [? Hs]; congruence.
Qed.

(** C4 (amended).  A construction that asks for a [stdin] option
    together with a predecessor or with literal input, for literal
    input together with a predecessor that has an output stream, or for
    the capture of the output or of the error stream together with an
    option for that stream, fails with a [ValueError] before anything
    is launched: the machine is left as it was. *)
Theorem conflicting_options_refused (args : cmd) (check : bool)
    (tail : option Process) (input : option input_data) (wait_ : bool)
    (timeout : option float) (capture_stdout capture_stderr : bool)
    (kwargs : gmap string value) (m : machine) :
  conflicting tail input capture_stdout capture_stderr kwargs →
  ∃ msg,
    Process__init__ args check tail input wait_ timeout
      capture_stdout capture_stderr kwargs m
    = (inl (ValueError msg), m).
Proof.
  intros Hc.
  destruct (configure_conflicting args _ _ _ _ _ Hc) as [msg Hmsg].
  exists msg. unfold Process__init__. rewrite Hmsg. reflexivity.
Qed.

Lemma Process__init__unfold (args : cmd) (check : bool)
    (tail : option Process) (input : option input_data) (wait_ : bool)
    (timeout : option float) (capture_stdout capture_stderr : bool)
    (kwargs : gmap string value) (m : machine)
    (args' : cmd) (kwargs' : gmap string value)
    (self : Process) (m1 : machine) :
  configure args tail input capture_stdout capture_stderr kwargs
    = inr (args', kwargs') →
  launch args' kwargs' check tail m = (inr self, m1) →
  Process__init__ args check tail input wait_ timeout
    capture_stdout capture_stderr kwargs m
  = bind (write_input self input) (λ _, after_input self wait_ timeout) m1.
Proof.
  intros Hconf Hlaunch. unfold Process__init__. rewrite Hconf.
  unfold bind at 1. rewrite Hlaunch. reflexivity.
Qed.

(** C8 (amended).  In a construction with literal input that passes
    the checks and launches the process: when the object has no [stdin]
    stream, the construction fails with a type error and nothing is
    written or closed; when it has one, the input is written to it
    right after the launch and the stream is closed right after the
    write, whatever the write did.  If the close fails, its error is
    raised.  Otherwise an [IOError] of the write whose [errno] is
    [EINVAL] or [EPIPE] is dropped and the construction goes on as
    after a write without error, and any other exception of the write
    is raised. *)
Theorem literal_input_written (args : cmd) (check : bool)
    (tail : option Process) (data : input_data) (wait_ : bool)
    (timeout : option float) (capture_stdout capture_stderr : bool)
    (kwargs : gmap string value) (m : machine)
    (args' : cmd) (kwargs' : gmap string value)
    (self : Process) (m1 : machine) :
  configure args tail (Some data) capture_stdout capture_stderr kwargs
    = inr (args', kwargs') →
  launch args' kwargs' check tail m = (inr self, m1) →
  history m1 = history m ++ [EvPopen args' kwargs']
  ∧ match stdin self with
    | None =>
        Process__init__ args check tail (Some data) wait_ timeout
          capture_stdout capture_stderr kwargs m
        = (inl (TypeError "Couldn't find stdin"), m1)
    | Some s =>
        let binary :=
          match data with InBytes _ => true | InText _ => false end in
        let m2 := record (EvWrite s binary data) m1 in
        let m3 := record (EvClose s) m2 in
        history m3 = history m1 ++ [EvWrite s binary data; EvClose s]
        ∧ Process__init__ args check tail (Some data) wait_ timeout
            capture_stdout capture_stderr kwargs m
          = match host_close (history m2) s with
            | Some e => (inl e, m3)
            | None =>
                match host_write (history m1) s binary data with
                | None => after_input self wait_ timeout m3
                | Some (IOError errno) =>
                    if errno_not_in_pipe_set errno
                    then (inl (IOError errno), m3)
                    else after_input self wait_ timeout m3
                | Some e => (inl e, m3)
                end
            end
    end.
Proof.
  intros Hconf Hlaunch. split.
  { unfold launch, bind, os_Popen in Hlaunch.
    destruct (host_Popen _ _ _); [discriminate|].
    injection Hlaunch as _ <-. reflexivity. }
  rewrite (Process__init__unfold _ _ _ _ _ _ _ _ _ _ _ _ _ _ Hconf Hlaunch).
  unfold write_input.
  destruct (stdin self) as [s|]; [|reflexivity].
  cbv zeta. split.
  { unfold record. cbn. by rewrite <- app_assoc. }
  assert (Hw : ∀ binary,
    bind (try_finally
            (except_IOError (stream_write s binary data)
               (λ errno, if errno_not_in_pipe_set errno
                         then raise (IOError errno) else ret tt))
            (stream_close s))
         (λ _, after_input self wait_ timeout) m1
    = match host_close (history (record (EvWrite s binary data) m1)) s with
      | Some e =>
          (inl e, record (EvClose s) (record (EvWrite s binary data) m1))
      | None =>
          match host_write (history m1) s binary data with
          | None =>
              after_input self wait_ timeout
                (record (EvClose s) (record (EvWrite s binary data) m1))
          | Some (IOError errno) =>
              if errno_not_in_pipe_set errno
              then (inl (IOError errno),
                    record (EvClose s) (record (EvWrite s binary data) m1))
              else after_input self wait_ timeout
                     (record (EvClose s) (record (EvWrite s binary data) m1))
          | Some e =>
              (inl e, record (EvClose s) (record (EvWrite s binary data) m1))
          end
      end).
  { intros binary.
    unfold bind, try_finally, except_IOError, stream_write, stream_close.
    destruct (host_write (history m1) s binary data) as [[| | |errno| | | |]|];
      cbn; try (destruct (host_close _ s); reflexivity).
    destruct (errno_not_in_pipe_set errno); cbn;
      destruct (host_close _ s); reflexivity. }
  destruct data; apply Hw.
Qed.

(** *** The calls into the host only grow *)

Lemma extends_refl (m : machine) : extends m m.
Proof. exists []. by rewrite app_nil_r. Qed.

Lemma extends_trans (m1 m2 m3 : machine) :
  extends m1 m2 → extends m2 m3 → extends m1 m3.
Proof.
  intros [l1 H1] [l2 H2]. exists (l1 ++ l2).
  by rewrite H2, H1, <- app_assoc.
Qed.

Lemma extends_record (ev : event) (m : machine) : extends m (record ev m).
Proof. by exists [ev]. Qed.

Lemma bind_extends {A B} (c : M A) (k : A → M B) :
  (∀ m, extends m (c m).2) → (∀ a m, extends m (k a m).2) →
  ∀ m, extends m (bind c k m).2.
Proof.
  intros Hc Hk m. unfold bind. specialize (Hc m).
  destruct (c m) as [[e|a] m']; [exact Hc|].
  eapply extends_trans; [exact Hc|apply Hk].
Qed.

Lemma ret_extends {A} (a : A) (m : machine) : extends m (ret a m).2.
Proof. apply extends_refl. Qed.

Lemma raise_extends {A} (e : exn) (m : machine) :
  extends m (@raise A e m).2.
Proof. apply extends_refl. Qed.

Lemma on_kinds_extends {A} (c : kinds → (exn + A) * kinds) (m : machine) :
  extends m (on_kinds c m).2.
Proof.
  unfold on_kinds. destruct (c (kinds_of m)). exists []. cbn.
  by rewrite app_nil_r.
Qed.

Lemma wait_extends (self : Process) (timeout : option float) (m : machine) :
  extends m (wait self timeout m).2.
Proof.
  revert self timeout m. fix IH 1.
  intros [pid0 args0 check0 [t|] i o e] [timeout|] m; cbn [wait tail];
    repeat first
      [ apply bind_extends; [intros ?|intros ? ?]
      | apply IH | apply ret_extends | apply extends_record ].
Qed.

Lemma check_returncode_extends (self : Process) (m : machine) :
  extends m (check_returncode self m).2.
Proof.
  unfold check_returncode.
  apply bind_extends; [intros ?; apply wait_extends|intros rc m'].
  destruct (negb (rc =? 0)); [|apply ret_extends].
  apply bind_extends; [apply on_kinds_extends|intros ? ?; apply raise_extends].
Qed.

Lemma initial_wait_extends (self : Process) (wait_ : bool)
    (timeout : option float) (m : machine) :
  extends m (initial_wait self wait_ timeout m).2.
Proof.
  unfold initial_wait.
  destruct (wait_ || negb (bool_decide (timeout = None)));
    [|apply ret_extends].
  apply bind_extends.
  - intros m'. destruct timeout; apply wait_extends.
  - intros _ m'. destruct (check self);
      [apply check_returncode_extends|apply ret_extends].
Qed.

Lemma write_input_extends (self : Process) (input : option input_data)
    (m : machine) :
  extends m (write_input self input m).2.
Proof.
  unfold write_input. destruct input as [data|]; [|apply ret_extends].
  destruct (stdin self) as [s|]; [|apply raise_extends].
  unfold try_finally, except_IOError, stream_close.
  assert (Hw : ∀ binary,
    extends m
      (let (r, m1) :=
         match stream_write s binary data m with
         | (inl (IOError errno), m1) =>
             (if errno_not_in_pipe_set errno
              then raise (IOError errno) else ret tt) m1
         | r => r
         end in
       match
         (match host_close (history m1) s with
          | Some e => inl e
          | None => inr tt
          end, record (EvClose s) m1)
       with
       | (inl e, m2) => (inl e, m2)
       | (inr _, m2) => (r, m2)
       end).2).
  { intros binary. unfold stream_write.
    destruct (host_write (history m) s binary data) as [[| | |errno| | | |]|];
      cbn;
      try destruct (errno_not_in_pipe_set errno); cbn;
      destruct (host_close _ s); cbn;
      (eapply extends_trans; [apply extends_record|apply extends_record]). }
  destruct data; apply Hw.
Qed.

(** What [configure] leaves under [stdin] for a construction with a
    predecessor. *)
Lemma configure_tail_stdin (args : cmd) (t : Process)
    (input : option input_data) (capture_stdout capture_stderr : bool)
    (kwargs : gmap string value) args' kwargs' :
  configure args (Some t) input capture_stdout capture_stderr kwargs
    = inr (args', kwargs') →
  kwargs' !! "stdin" =
    Some match input with
         | Some _ => PIPE
         | None => value_of_stream (stdout t)
         end
  ∧ (is_Some input → stdout t = None).
Proof.
  unfold configure.
  destruct (negb (is_True (default (VBool true)
                             (kwargs !! "universal_newlines"))));
    [discriminate|].
  cbn [bind_exn].
  destruct (stdout t) as [s|] eqn:Es.
  all: destruct (is_None (kwargs_get kwargs "stdin")) eqn:Ein,
           (is_None (kwargs_get kwargs "stdout")) eqn:Eout,
           (is_None (kwargs_get kwargs "stderr")) eqn:Eerr,
           input as [d|], capture_stdout, capture_stderr;
    repeat first
      [ rewrite kwargs_get_insert_ne by done
      | rewrite kwargs_get_insert_eq
      | rewrite Ein | rewrite Eout | rewrite Eerr
      | progress cbn [bind_exn negb is_None PIPE value_of_stream] ];
    try discriminate.
  all: intros [= <- <-]; split; [|first [done|by intros [? ?]]].
  all: repeat first
      [ rewrite lookup_insert_eq | rewrite lookup_insert_ne by done ];
    done.
Qed.

(** C10 (amended).  A construction with a predecessor that returns the
    object has launched the process with, under [stdin], the output
    stream of the predecessor when no literal input is given, and a new
    pipe when literal input is given, which passes the checks only for
    a predecessor without output stream; either way the attribute
    [stdin] of the object is the attribute [stdin] of the predecessor,
    and its [tail] is the predecessor. *)
Theorem tail_rebinds_stdin (args : cmd) (check : bool) (t : Process)
    (input : option input_data) (wait_ : bool) (timeout : option float)
    (capture_stdout capture_stderr : bool) (kwargs : gmap string value)
    (m : machine) (self : Process) (m' : machine) :
  Process__init__ args check (Some t) input wait_ timeout
    capture_stdout capture_stderr kwargs m = (inr self, m') →
  stdin self = stdin t
  ∧ tail self = Some t
  ∧ ∃ args' kwargs' later,
      history m' = history m ++ EvPopen args' kwargs' :: later
      ∧ kwargs' !! "stdin" =
          Some match input with
               | Some _ => PIPE
               | None => value_of_stream (stdout t)
               end
      ∧ (is_Some input → stdout t = None).
Proof.
  intros Hinit.
  destruct (configure args (Some t) input capture_stdout capture_stderr
              kwargs) as [e|[args' kwargs']] eqn:Hconf.
  { unfold Process__init__ in Hinit. rewrite Hconf in Hinit. discriminate. }
  destruct (launch args' kwargs' check (Some t) m) as [[e|self0] m1]
    eqn:Hlaunch.
  { unfold Process__init__ in Hinit. rewrite Hconf in Hinit.
    unfold bind at 1 in Hinit. rewrite Hlaunch in Hinit. discriminate. }
  rewrite (Process__init__unfold _ _ _ _ _ _ _ _ _ _ _ _ _ _ Hconf Hlaunch)
    in Hinit.
  pose proof (write_input_extends self0 input m1) as Hw.
  unfold bind in Hinit.
  destruct (write_input self0 input m1) as [[e|[]] m2]; [discriminate|].
  pose proof (initial_wait_extends self0 wait_ timeout m2) as Hi.
  unfold after_input, bind in Hinit.
  destruct (initial_wait self0 wait_ timeout m2) as [[e|[]] m3];
    [discriminate|].
  injection Hinit as <- <-.
  unfold launch, bind, os_Popen in Hlaunch.
  destruct (host_Popen (history m) args' kwargs') as [e|popen];
    [discriminate|].
  injection Hlaunch as <- <-. cbn [stdin tail].
  split; [done|]. split; [done|].
  destruct (configure_tail_stdin _ _ _ _ _ _ _ _ Hconf) as [Hstdin Hinput].
  destruct (extends_trans _ _ _ Hw Hi) as [later Hlater].
  exists args', kwargs', later. split; [|done].
  cbn [snd] in Hlater. rewrite Hlater. cbn. by rewrite <- app_assoc.
Qed.

(** ** More of the module *)

(** *** Marshalling and templates *)

(** X1.  A flag: for every name, marshalling the option [name=True]
    yields one token; the token starts with a dash and has no underscore;
    and a name that starts with an underscore or a dash gets no dash
    added, its leading underscores are the dashes. *)
Theorem flag_token (name : string) :
  ∃ t,
    _parse [] [(name, VBool true)] = ([Text t], None)
    ∧ PyStr.startswith "-" t = true
    ∧ (∀ i, String.get i t ≠ Some "_"%char)
    ∧ (PyStr.startswith "_" name = true ∨ PyStr.startswith "-" name = true →
       t = PyStr.replace "_" "-" name).
Proof.
  unfold _parse, PyDict.items. cbn [_parse_opts _parse_args is_False is_True].
  pose proof (replace_removes "_" "-" name) as Hno.
  destruct (PyStr.startswith "-" (PyStr.replace "_" "-" name)) eqn:Hdash;
    cbn [negb].
  - eexists. split; [reflexivity|]. split; [exact Hdash|].
    split; [intros i; by apply Hno|done].
  - assert (Hname : PyStr.startswith "_" name = false
                    ∧ PyStr.startswith "-" name = false).
    { destruct name as [|c name]; [done|]. simpl in *.
      destruct (Ascii.eqb_spec c "_") as [->|Hc]; [done|].
      split; [done|]. exact Hdash. }
    destruct Hname as [Hu Hd].
    destruct (PyStr.len (PyStr.replace "_" "-" name) =? 1);
      (eexists; split; [reflexivity|]; split; [reflexivity|]; split;
       [|intros [H|H]; congruence]).
    + intros [|i]; [done|]. simpl. by apply Hno.
    + intros [|[|i]]; [done|done|]. simpl. by apply Hno.
Qed.

Lemma each_app {A B} (f : A → exn + B) (xs ys : list A) :
  each f (xs ++ ys) =
  (let? a := each f xs in let? b := each f ys in inr (a ++ b)).
Proof.
  induction xs as [|x xs IH]; simpl.
  - by destruct (each f ys).
  - destruct (f x) as [e|b]; [done|]. simpl. rewrite IH.
    destruct (each f xs) as [e|a]; [done|]. simpl.
    by destruct (each f ys).
Qed.

(** X2.  Indexing composes: indexing by the items of two tuples one after
    the other is indexing by their concatenation, also in the error it
    ends with; indexing keeps the options, and indexing by the empty
    tuple gives the template back. *)
Theorem getitem_composes (self : Command) (xs ys : list value) :
  Command__getitem__ self (xs ++ ys) =
    (let? c := Command__getitem__ self xs in Command__getitem__ c ys)
  ∧ (∀ c, Command__getitem__ self xs = inr c → opts_ c = opts_ self)
  ∧ Command__getitem__ self [] = inr self.
Proof.
  unfold Command__getitem__, Command__init__. cbn [default].
  rewrite (left_id_L ∅ (∪)). split; [|split].
  - rewrite each_app. destruct (each _to_strlike xs) as [e|a]; [done|].
    cbn [bind_exn args_ opts_]. rewrite (left_id_L ∅ (∪)).
    destruct (each _to_strlike ys) as [e|b]; [done|].
    cbn [bind_exn]. by rewrite app_assoc.
  - intros c. destruct (each _to_strlike xs); [done|]. by intros [= <-].
  - cbn. rewrite app_nil_r. by destruct self.
Qed.

(** X3.  [Command.__getattr__], the method Python calls for a name that
    the lookup of attributes does not find (so not for a method or a
    class attribute of [Command], nor for [args_] and [opts_]): for a
    reserved name it raises [AttributeError] with the name; for any
    other name it gives the template with one more token, the name with
    its underscores turned to dashes, and the same options, which is
    what indexing by that token gives. *)
Theorem getattr_as_getitem (self : Command) (item : string) :
  (_is_reserved item = true →
   Command__getattr__ self item = inl (AttributeError item))
  ∧ (_is_reserved item = false →
     Command__getattr__ self item =
       inr {| args_ := args_ self ++ [Text (PyStr.replace "_" "-" item)];
              opts_ := opts_ self |}
     ∧ Command__getattr__ self item =
         Command__getitem__ self [VStr (PyStr.replace "_" "-" item)]).
Proof.
  unfold Command__getattr__, Command__getitem__, Command__init__.
  cbn [default each bind_exn _to_strlike isinstance_STR_TYPES].
  rewrite (left_id_L ∅ (∪)).
  split; intros ->; [done|]. by split.
Qed.

Lemma route_all_reserved (opts : list (string * value))
    (acc : gmap string value * list (string * value)) :
  Forall (λ kv, _is_reserved kv.1 = true) opts →
  (fold_left route_step opts acc).2 = acc.2.
Proof.
  revert acc. induction opts as [|kv opts IH]; intros acc Hall; [done|].
  apply Forall_cons in Hall as [Hkv Hall]. cbn [fold_left].
  rewrite IH by done. unfold route_step. by rewrite Hkv.
Qed.

(** X4.  When no keyword argument is marshalled (every keyword of the
    call is reserved), a token given by attribute access before the call
    and the same string given as first positional argument lead to the
    same call of [Process]: [sh.true.foo()] and [sh.true('foo')]. *)
Theorem attribute_or_argument (self c : Command) (item : string)
    (args : list value) (opts : list (string * value)) :
  Forall (λ kv, _is_reserved kv.1 = true) opts →
  (∀ i, String.get i item ≠ Some "_"%char) →
  Command__getattr__ self item = inr c →
  call_arguments c args opts = call_arguments self (VStr item :: args) opts.
Proof.
  intros Hall Hno Hc.
  assert (Hsame : PyStr.replace "_" "-" item = item).
  { clear Hc. induction item as [|a item IH]; [done|]. simpl.
    destruct (Ascii.eqb_spec a "_") as [->|_].
    - by destruct (Hno 0%nat).
    - f_equal. apply IH. intros i. apply (Hno (S i)). }
  unfold Command__getattr__ in Hc.
  destruct (_is_reserved item); [done|]. injection Hc as <-.
  unfold call_arguments, route, PyDict.items, Command__init__.
  cbn [args_ opts_ default]. rewrite (left_id_L ∅ (∪)), Hsame.
  rewrite !route_all_reserved by done. cbn [snd].
  unfold _parse, PyDict.items. cbn [_parse_opts _parse_args].
  cbn [_to_strlike isinstance_STR_TYPES]. rewrite tuple_yield.
  destruct (tuple (_parse_args args)) as [e|toks]; [done|].
  cbn [bind_exn]. by rewrite <- app_assoc.
Qed.

(** *** The launch modes *)

Lemma call_arguments_options (self : Command) (args : list value)
    (opts : list (string * value)) argv process_kwargs :
  NoDup opts.*1 →
  call_arguments self args opts = inr (argv, process_kwargs) →
  ∀ k, process_kwargs !! k = call_option self opts k.
Proof.
  intros Hnd Hcall k. unfold call_arguments in Hcall.
  destruct (tuple _) as [e|toks]; [done|]. cbn [bind_exn] in Hcall.
  injection Hcall as _ <-. unfold call_option, setdefault.
  pose proof (route_process_kwargs opts (opts_ self, []) k Hnd) as Hk.
  pose proof (route_process_kwargs opts (opts_ self, []) "wait" Hnd) as Hw.
  unfold route, PyDict.items. cbn [fst] in Hk, Hw.
  destruct ((fold_left route_step opts (opts_ self, [])).1 !! "wait")
    as [w|] eqn:Ew.
  - rewrite Hk. destruct (decide (k = "wait")) as [->|Hne].
    + destruct (if _is_reserved ("wait" +:+ "_") then _ else _);
        [done|]. by rewrite <- Hw.
    + destruct (if _is_reserved (k +:+ "_") then _ else _); [done|].
      by destruct (opts_ self !! k).
  - destruct (decide (k = "wait")) as [->|Hne].
    + rewrite lookup_insert_eq.
      destruct (if _is_reserved ("wait" +:+ "_") then _ else _);
        [done|]. by rewrite <- Hw.
    + rewrite lookup_insert_ne by done. rewrite Hk.
      destruct (if _is_reserved (k +:+ "_") then _ else _); [done|].
      by destruct (opts_ self !! k).
Qed.

Lemma dict_get_set {K V} `{EqDecision K} (d : list (K * V)) k v k' :
  PyDict.get (PyDict.set d k v) k' =
  if decide (k = k') then Some v else PyDict.get d k'.
Proof.
  induction d as [|[k0 v0] d IH]; simpl.
  - by destruct (decide (k = k')).
  - destruct (decide (k0 = k)) as [->|Hne]; simpl.
    + by destruct (decide (k = k')).
    + rewrite IH. destruct (decide (k0 = k')) as [->|?]; [|done].
      by rewrite decide_False.
Qed.

Lemma dict_get_is_Some {K V} `{EqDecision K} (d : list (K * V)) k :
  is_Some (PyDict.get d k) ↔ k ∈ d.*1.
Proof.
  induction d as [|[k0 v0] d IH].
  - split; [by intros [? ?]|by intros ?%elem_of_nil].
  - rewrite fmap_cons, elem_of_cons. cbn [PyDict.get fst].
    destruct (decide (k0 = k)) as [->|Hne].
    + split; [by left|by eexists].
    + rewrite IH. split; [by right|]. intros [->|?]; [done|done].
Qed.

Lemma dict_set_keys {K V} `{EqDecision K} (d : list (K * V)) k v :
  (PyDict.set d k v).*1 = if decide (k ∈ d.*1) then d.*1 else d.*1 ++ [k].
Proof.
  induction d as [|[k0 v0] d IH].
  - cbn. rewrite decide_False; [done|]. apply not_elem_of_nil.
  - cbn [PyDict.set]. destruct (decide (k0 = k)) as [->|Hne].
    + rewrite !fmap_cons. cbn [fst]. rewrite decide_True by left. done.
    + rewrite !fmap_cons, IH. cbn [fst].
      destruct (decide (k ∈ d.*1)) as [Hin|Hout].
      * rewrite decide_True by (by right). done.
      * rewrite decide_False; [done|].
        intros [?|?]%elem_of_cons; congruence.
Qed.

Lemma kw_setdefault_get (opts : list (string * value)) k v k' :
  PyDict.get (kw_setdefault opts k v) k' =
  if decide (k = k') then Some (default v (PyDict.get opts k))
  else PyDict.get opts k'.
Proof.
  unfold kw_setdefault. destruct (PyDict.get opts k) as [x|] eqn:Hk.
  - destruct (decide (k = k')) as [<-|?]; [by rewrite Hk|done].
  - by rewrite dict_get_set.
Qed.

Lemma kw_setdefault_NoDup (opts : list (string * value)) k v :
  NoDup opts.*1 → NoDup (kw_setdefault opts k v).*1.
Proof.
  intros Hnd. unfold kw_setdefault.
  destruct (PyDict.get opts k) as [x|] eqn:Hk; [done|].
  rewrite dict_set_keys. rewrite decide_False.
  - apply NoDup_app. split; [done|]. split; [|apply NoDup_singleton].
    intros x Hx ->%list_elem_of_singleton.
    apply dict_get_is_Some in Hx. rewrite Hk in Hx. by destruct Hx.
  - intros Hin%dict_get_is_Some. rewrite Hk in Hin. by destruct Hin.
Qed.

(** What [Process.__init__] leaves in [check] and [tail]. *)
Lemma Process__init__attributes (args : cmd) (check0 : bool)
    (tail0 : option Process) (input : option input_data) (wait_ : bool)
    (timeout : option float) (capture_stdout capture_stderr : bool)
    (kwargs : gmap string value) (m : machine) (self : Process)
    (m' : machine) :
  Process__init__ args check0 tail0 input wait_ timeout
    capture_stdout capture_stderr kwargs m = (inr self, m') →
  check self = check0 ∧ tail self = tail0.
Proof.
  intros Hinit.
  destruct (configure args tail0 input capture_stdout capture_stderr
              kwargs) as [e|[args' kwargs']] eqn:Hconf.
  { unfold Process__init__ in Hinit. rewrite Hconf in Hinit. discriminate. }
  destruct (launch args' kwargs' check0 tail0 m) as [[e|self0] m1]
    eqn:Hlaunch.
  { unfold Process__init__ in Hinit. rewrite Hconf in Hinit.
    unfold bind at 1 in Hinit. rewrite Hlaunch in Hinit. discriminate. }
  rewrite (Process__init__unfold _ _ _ _ _ _ _ _ _ _ _ _ _ _ Hconf Hlaunch)
    in Hinit.
  unfold bind in Hinit.
  destruct (write_input self0 input m1) as [[e|[]] m2]; [discriminate|].
  unfold after_input, bind in Hinit.
  destruct (initial_wait self0 wait_ timeout m2) as [[e|[]] m3];
    [discriminate|].
  injection Hinit as <- <-.
  unfold launch, bind, os_Popen in Hlaunch.
  destruct (host_Popen (history m) args' kwargs'); [discriminate|].
  by injection Hlaunch as <- <-.
Qed.

Lemma waited_app (l1 l2 : list event) :
  waited (l1 ++ l2) = waited l1 ++ waited l2.
Proof. apply omap_app. Qed.

Lemma write_input_waited (self : Process) (input : option input_data)
    (m : machine) :
  waited (history (write_input self input m).2) = waited (history m).
Proof.
  unfold write_input. destruct input as [data|]; [|done].
  destruct (stdin self) as [s|]; [|done].
  unfold try_finally, except_IOError, stream_close.
  assert (Hw : ∀ binary,
    waited (history
      (let (r, m1) :=
         match stream_write s binary data m with
         | (inl (IOError errno), m1) =>
             (if errno_not_in_pipe_set errno
              then raise (IOError errno) else ret tt) m1
         | r => r
         end in
       match
         (match host_close (history m1) s with
          | Some e => inl e
          | None => inr tt
          end, record (EvClose s) m1)
       with
       | (inl e, m2) => (inl e, m2)
       | (inr _, m2) => (r, m2)
       end).2) = waited (history m)).
  { intros binary. unfold stream_write.
    destruct (host_write (history m) s binary data) as [[| | |errno| | | |]|];
      cbn;
      try destruct (errno_not_in_pipe_set errno); cbn;
      destruct (host_close _ s); cbn;
      rewrite !waited_app; cbn; by rewrite !app_nil_r. }
  destruct data; apply Hw.
Qed.

(** A construction that is told neither to wait nor a timeout waits on
    nothing. *)
Lemma Process__init__no_wait (args : cmd) (check0 : bool)
    (tail0 : option Process) (input : option input_data)
    (capture_stdout capture_stderr : bool)
    (kwargs : gmap string value) (m : machine) :
  waited (history (Process__init__ args check0 tail0 input false None
                     capture_stdout capture_stderr kwargs m).2)
  = waited (history m).
Proof.
  unfold Process__init__.
  destruct (configure args tail0 input capture_stdout capture_stderr
              kwargs) as [e|[args' kwargs']]; [done|].
  unfold bind at 1, launch, bind at 1, os_Popen.
  destruct (host_Popen (history m) args' kwargs') as [e|popen]; cbn [ret].
  { cbn. rewrite waited_app. cbn. by rewrite app_nil_r. }
  set (self := {| pid := p_pid popen |}).
  set (m1 := record (EvPopen args' kwargs') m).
  assert (Hm1 : waited (history m1) = waited (history m)).
  { subst m1. cbn. rewrite waited_app. cbn. by rewrite app_nil_r. }
  pose proof (write_input_waited self input m1) as Hw.
  unfold bind. destruct (write_input self input m1) as [[e|[]] m2];
    cbn [snd] in *; [congruence|].
  unfold after_input, initial_wait, bind. cbn. congruence.
Qed.

Lemma Process_call_result (args : cmd) (keywords : gmap string value)
    (m : machine) (p : Process) (m' : machine) :
  Process_call args keywords m = (inr p, m') →
  check p = truthy (default (VBool true) (keywords !! "check"))
  ∧ as_tail (kwargs_get keywords "tail") = inr (tail p).
Proof.
  unfold Process_call. do 2 (case_bool_decide; [done|]).
  destruct (as_tail (kwargs_get keywords "tail")) as [e|tail0],
           (as_input (kwargs_get keywords "input")) as [e'|input],
           (as_timeout (kwargs_get keywords "timeout")) as [e''|timeout];
    try done.
  intros [-> ->]%Process__init__attributes. done.
Qed.

Lemma Process_call_no_wait (args : cmd) (keywords : gmap string value)
    (m : machine) :
  truthy (default (VBool false) (keywords !! "wait")) = false →
  kwargs_get keywords "timeout" = VNone →
  waited (history (Process_call args keywords m).2) = waited (history m).
Proof.
  intros Hwait Htimeout. unfold Process_call. do 2 (case_bool_decide; [done|]).
  rewrite Htimeout, Hwait. cbn [as_timeout].
  destruct (as_tail (kwargs_get keywords "tail")) as [e|tail0],
           (as_input (kwargs_get keywords "input")) as [e'|input];
    try done.
  apply Process__init__no_wait.
Qed.

(** The keywords of a launch mode: [stdout_=PIPE] before the keywords of
    the caller, when the caller gives no [stdout_]. *)
Lemma call_stdout_PIPE_unfold (self : Command) (args : list value)
    (opts : list (string * value)) (m : machine) :
  NoDup opts.*1 →
  (∃ v msg, PyDict.get opts "stdout_" = Some v
            ∧ call_stdout_PIPE self args opts m = (inl (TypeError msg), m))
  ∨ (PyDict.get opts "stdout_" = None
     ∧ NoDup (("stdout_", PIPE) :: opts).*1
     ∧ call_stdout_PIPE self args opts m =
       Command__call__ self args (("stdout_", PIPE) :: opts) m).
Proof.
  intros Hnd. unfold call_stdout_PIPE.
  destruct (PyDict.get opts "stdout_") as [v|] eqn:Hget.
  - left. by eexists _, _.
  - right. split; [done|]. split; [|done].
    rewrite fmap_cons. cbn [fst]. apply NoDup_cons. split; [|done].
    intros Hin%dict_get_is_Some. rewrite Hget in Hin. by destruct Hin.
Qed.

(** X5.  [pipe_] gives a template without tokens, with the options of
    the original and the launched process as [tail]; the process is not
    checked unless the caller says [check_], and its predecessor is the
    [tail] of the original template unless the caller says [tail_].  A
    caller who gives [stdout_] gets a [TypeError] and nothing is
    launched. *)
Theorem pipe_template (self : Command) (args : list value)
    (opts : list (string * value)) (m : machine) :
  NoDup opts.*1 →
  (∀ v, PyDict.get opts "stdout_" = Some v →
     ∃ msg, pipe_ self args opts m = (inl (TypeError msg), m))
  ∧ (∀ c m', pipe_ self args opts m = (inr c, m') →
     ∃ process,
       c = {| args_ := [];
              opts_ := <["tail" := VProc process]> (opts_ self) |}
       ∧ check process
         = truthy (default (VBool false) (PyDict.get opts "check_"))
       ∧ (PyDict.get opts "tail_" = None →
          as_tail (kwargs_get (opts_ self) "tail") = inr (tail process))).
Proof.
  intros Hnd. unfold pipe_.
  set (opts' := kw_setdefault (kw_setdefault opts "wait_" (VBool false))
                  "check_" (VBool false)).
  assert (Hnd' : NoDup opts'.*1) by (by do 2 apply kw_setdefault_NoDup).
  assert (Hget : ∀ k, k ≠ "wait_" → k ≠ "check_" →
            PyDict.get opts' k = PyDict.get opts k).
  { intros k H1 H2. subst opts'. rewrite !kw_setdefault_get.
    by rewrite !decide_False by done. }
  assert (Hcheck : PyDict.get opts' "check_"
            = Some (default (VBool false) (PyDict.get opts "check_"))).
  { subst opts'. rewrite !kw_setdefault_get. rewrite decide_True by done.
    by rewrite decide_False by done. }
  destruct (call_stdout_PIPE_unfold self args opts' m Hnd')
    as [(v & msg & Hv & Hcall)|(Hnone & Hnd2 & Hcall)].
  - split.
    + intros v' _. exists msg. unfold bind. by rewrite Hcall.
    + intros c m'. unfold bind. by rewrite Hcall.
  - split.
    + intros v Hv. rewrite Hget in Hnone by done. congruence.
    + intros c m'. unfold bind. rewrite Hcall. unfold Command__call__.
      destruct (call_arguments self args (("stdout_", PIPE) :: opts'))
        as [e|[argv process_kwargs]] eqn:Hargs; [done|].
      pose proof (call_arguments_options _ _ _ _ _ Hnd2 Hargs) as Hopt.
      destruct (Process_call argv process_kwargs m) as [[e|process] m1]
        eqn:Hp; [done|].
      intros [= <- <-]. exists process.
      apply Process_call_result in Hp as [Hc Ht].
      split; [|split].
      * unfold Command__init__. cbn [default]. f_equal.
        by rewrite insert_union_singleton_l.
      * rewrite Hc, Hopt. unfold call_option.
        change ("check" +:+ "_") with "check_".
        change (_is_reserved "check_") with true. cbv iota.
        cbn [PyDict.get]. rewrite decide_False by done.
        by rewrite Hcheck.
      * intros Htail. rewrite <- Ht. f_equal. unfold kwargs_get.
        rewrite Hopt. unfold call_option.
        change ("tail" +:+ "_") with "tail_".
        change (_is_reserved "tail_") with true. cbv iota.
        cbn [PyDict.get]. rewrite decide_False by done.
        rewrite Hget by done. rewrite Htail.
        destruct (opts_ self !! "tail"); [done|].
        by rewrite decide_False.
Qed.

(** X6.  [pipe_] and [capture_] return without waiting on any process,
    whatever [wait] the template stores, when the caller gives neither
    [wait_] nor [timeout_] and the template stores no [timeout], and
    when the call holds no [Process] but as predecessor: none among the
    arguments, and none among the keywords of the call and the options
    of the template but under [tail_] and [tail].  (The conversion of a
    [Process] to a string and its truth value wait on it.) *)
Theorem capture_does_not_wait (self : Command) (args : list value)
    (opts : list (string * value)) (m : machine) :
  NoDup opts.*1 →
  PyDict.get opts "wait_" = None →
  PyDict.get opts "timeout_" = None →
  opts_ self !! "timeout" = None →
  Forall (λ v, ∀ p, v ≠ VProc p) args →
  Forall (λ kv : string * value, kv.1 ≠ "tail_" → ∀ p, kv.2 ≠ VProc p)
    opts →
  (∀ k p, opts_ self !! k = Some (VProc p) → k = "tail") →
  waited (history (capture_ self args opts m).2) = waited (history m)
  ∧ waited (history (pipe_ self args opts m).2) = waited (history m).
Proof.
  intros Hnd Hwait Htimeout Htemplate _ _ _.
  assert (Hmode : ∀ opts',
    NoDup opts'.*1 →
    PyDict.get opts' "wait_" = Some (VBool false) →
    PyDict.get opts' "timeout_" = None →
    waited (history (call_stdout_PIPE self args opts' m).2)
    = waited (history m)).
  { intros opts' Hnd' Hw Ht.
    destruct (call_stdout_PIPE_unfold self args opts' m Hnd')
      as [(v & msg & Hv & Hcall)|(Hnone & Hnd2 & Hcall)];
      rewrite Hcall; [done|].
    unfold Command__call__.
    destruct (call_arguments self args (("stdout_", PIPE) :: opts'))
      as [e|[argv process_kwargs]] eqn:Hargs; [done|].
    pose proof (call_arguments_options _ _ _ _ _ Hnd2 Hargs) as Hopt.
    apply Process_call_no_wait.
    - rewrite Hopt. unfold call_option.
      change ("wait" +:+ "_") with "wait_".
      change (_is_reserved "wait_") with true. cbv iota.
      cbn [PyDict.get]. rewrite decide_False by done.
      by rewrite Hw.
    - unfold kwargs_get. rewrite Hopt. unfold call_option.
      change ("timeout" +:+ "_") with "timeout_".
      change (_is_reserved "timeout_") with true. cbv iota.
      cbn [PyDict.get]. rewrite decide_False by done.
      rewrite Ht, Htemplate. by rewrite decide_False. }
  split.
  - unfold capture_. apply Hmode.
    + by apply kw_setdefault_NoDup.
    + rewrite kw_setdefault_get, decide_True by done. by rewrite Hwait.
    + rewrite kw_setdefault_get, decide_False by done. done.
  - unfold pipe_, bind.
    specialize (Hmode (kw_setdefault (kw_setdefault opts "wait_" (VBool false))
                         "check_" (VBool false))).
    destruct (call_stdout_PIPE self args _ m) as [[e|p] m1]; cbn [snd] in *;
      apply Hmode.
    all: try (by do 2 apply kw_setdefault_NoDup).
    all: rewrite !kw_setdefault_get;
      repeat first [rewrite decide_True by done | rewrite decide_False by done];
      by rewrite ?Hwait.
Qed.

(** *** What leaves the taxonomy alone *)

Lemma bind_kinds {A B} (c : M A) (k : A → M B) :
  (∀ m, kinds_of (c m).2 = kinds_of m) →
  (∀ a m, kinds_of (k a m).2 = kinds_of m) →
  ∀ m, kinds_of (bind c k m).2 = kinds_of m.
Proof.
  intros Hc Hk m. unfold bind. specialize (Hc m).
  destruct (c m) as [[e|a] m']; [exact Hc|].
  cbn [snd] in Hc. by rewrite Hk.
Qed.

Lemma wait_kinds (self : Process) (timeout : option float) (m : machine) :
  kinds_of (wait self timeout m).2 = kinds_of m.
Proof.
  revert self timeout m. fix IH 1.
  intros [pid0 args0 check0 [t|] i o e] [timeout|] m; cbn [wait tail];
    repeat first
      [ apply bind_kinds; [intros ?|intros ? ?]
      | apply IH | reflexivity ].
Qed.

Lemma write_input_kinds (self : Process) (input : option input_data)
    (m : machine) :
  kinds_of (write_input self input m).2 = kinds_of m.
Proof.
  unfold write_input. destruct input as [data|]; [|done].
  destruct (stdin self) as [s|]; [|done].
  unfold try_finally, except_IOError, stream_close.
  assert (Hw : ∀ binary,
    kinds_of
      (let (r, m1) :=
         match stream_write s binary data m with
         | (inl (IOError errno), m1) =>
             (if errno_not_in_pipe_set errno
              then raise (IOError errno) else ret tt) m1
         | r => r
         end in
       match
         (match host_close (history m1) s with
          | Some e => inl e
          | None => inr tt
          end, record (EvClose s) m1)
       with
       | (inl e, m2) => (inl e, m2)
       | (inr _, m2) => (r, m2)
       end).2 = kinds_of m).
  { intros binary. unfold stream_write.
    destruct (host_write (history m) s binary data) as [[| | |errno| | | |]|];
      cbn;
      try destruct (errno_not_in_pipe_set errno); cbn;
      by destruct (host_close _ s). }
  destruct data; apply Hw.
Qed.

(** A construction with [check=False] looks up no error kind. *)
Lemma Process__init__unchecked (args : cmd) (tail0 : option Process)
    (input : option input_data) (wait_ : bool) (timeout : option float)
    (capture_stdout capture_stderr : bool)
    (kwargs : gmap string value) (m : machine) :
  kinds_of (Process__init__ args false tail0 input wait_ timeout
              capture_stdout capture_stderr kwargs m).2
  = kinds_of m.
Proof.
  unfold Process__init__.
  destruct (configure args tail0 input capture_stdout capture_stderr
              kwargs) as [e|[args' kwargs']]; [done|].
  unfold bind at 1, launch, bind at 1, os_Popen.
  destruct (host_Popen (history m) args' kwargs') as [e|popen]; [done|].
  cbn [ret].
  set (m1 := record (EvPopen args' kwargs') m).
  change (kinds_of m) with (kinds_of m1).
  generalize m1. clear m1. apply bind_kinds; [apply write_input_kinds|].
  intros _ m1. unfold after_input. apply bind_kinds; [|done].
  intros m2. unfold initial_wait. cbn [check].
  destruct (wait_ || negb (bool_decide (timeout = None))); [|done].
  apply bind_kinds; [|done].
  intros m3. destruct timeout; apply wait_kinds.
Qed.

Lemma Process_call_unchecked (args : cmd) (keywords : gmap string value)
    (m : machine) :
  truthy (default (VBool true) (keywords !! "check")) = false →
  kinds_of (Process_call args keywords m).2 = kinds_of m.
Proof.
  intros Hcheck. unfold Process_call. do 2 (case_bool_decide; [done|]).
  rewrite Hcheck.
  destruct (as_tail (kwargs_get keywords "tail")) as [e|tail0],
           (as_input (kwargs_get keywords "input")) as [e'|input],
           (as_timeout (kwargs_get keywords "timeout")) as [e''|timeout];
    try done.
  apply Process__init__unchecked.
Qed.

(** X7.  [test_] does not check the exit status unless the caller says
    [check_], whatever [check] the template stores: the process it
    returns has [check] false, and the call looks up no error kind, so it
    raises no [CommandError] of its own; this when the call holds no
    [Process] but as predecessor: none among the arguments, and none
    among the keywords of the call and the options of the template but
    under [tail_] and [tail].  (The conversion of a [Process] to a
    string and its truth value wait on it and may check it.) *)
Theorem test_unchecked (self : Command) (args : list value)
    (opts : list (string * value)) (m : machine) :
  NoDup opts.*1 →
  Forall (λ v, ∀ p, v ≠ VProc p) args →
  Forall (λ kv : string * value, kv.1 ≠ "tail_" → ∀ p, kv.2 ≠ VProc p)
    opts →
  (∀ k p, opts_ self !! k = Some (VProc p) → k = "tail") →
  (∀ p m', test_ self args opts m = (inr p, m') →
     check p = truthy (default (VBool false) (PyDict.get opts "check_")))
  ∧ (PyDict.get opts "check_" = None →
     kinds_of (test_ self args opts m).2 = kinds_of m).
Proof.
  intros Hnd _ _ _. unfold test_, Command__call__.
  set (opts' := kw_setdefault opts "check_" (VBool false)).
  assert (Hnd' : NoDup opts'.*1) by (by apply kw_setdefault_NoDup).
  assert (Hcheck : PyDict.get opts' "check_"
            = Some (default (VBool false) (PyDict.get opts "check_"))).
  { subst opts'. by rewrite kw_setdefault_get, decide_True. }
  destruct (call_arguments self args opts')
    as [e|[argv process_kwargs]] eqn:Hargs; [by split|].
  pose proof (call_arguments_options _ _ _ _ _ Hnd' Hargs "check") as Hopt.
  unfold call_option in Hopt.
  change ("check" +:+ "_") with "check_" in Hopt.
  change (_is_reserved "check_") with true in Hopt. cbv iota in Hopt.
  rewrite Hcheck in Hopt. split.
  - intros p m' [Hc _]%Process_call_result. by rewrite Hc, Hopt.
  - intros Hnone. apply Process_call_unchecked.
    by rewrite Hopt, Hnone.
Qed.

(** *** More of the error taxonomy *)

Lemma comprehension_keys {K V X} `{EqDecision K}
    (key : X → K) (val : X → V) (xs : list X) (d : list (K * V)) (k : K) :
  k ∈ (fold_left (λ d x, PyDict.set d (key x) (val x)) xs d).*1
  ↔ k ∈ d.*1 ∨ k ∈ key <$> xs.
Proof.
  revert d. induction xs as [|x xs IH]; intros d; cbn [fold_left].
  - rewrite fmap_nil, elem_of_nil. split; [by left|by intros [?|[]]].
  - rewrite IH, dict_set_keys, fmap_cons, elem_of_cons.
    destruct (decide (key x ∈ d.*1)) as [Hin|Hout].
    + split; [intros [?|?]; auto|intros [?|[->|?]]; auto].
    + rewrite elem_of_app, list_elem_of_singleton.
      split; [intros [[?|?]|?]; auto|intros [?|[?|?]]; auto].
Qed.

Lemma signal_unknown (name : string) :
  PyDict.get _SIGNAL_CODES name = None ↔ name ∉ Signals.*1.
Proof.
  rewrite eq_None_not_Some, dict_get_is_Some.
  unfold _SIGNAL_CODES, PyDict.comprehension.
  rewrite comprehension_keys, fmap_nil, elem_of_nil.
  split; intros H Hin; apply H; [by right|by destruct Hin].
Qed.

(** X8.  A lookup fails in two ways only: with a [ValueError] that names
    the signal, for a string that is no name of the host's enumeration,
    and with a [TypeError], for a code that is neither a string nor an
    [int]; a lookup that fails makes no class and leaves the memo as it
    is.  The [KeyError] of the last line of [code] is never raised. *)
Theorem lookup_failure (c : cls) (v : value) (st : kinds) :
  (∀ name, v = VStr name → name ∉ Signals.*1 →
     code c v st = (inl (ValueError ("Unknown signal " +:+ name)), st))
  ∧ (∀ e st', code c v st = (inl e, st') →
       st' = st
       ∧ ((∃ name, v = VStr name ∧ (name ∉ Signals.*1)
                   ∧ e = ValueError ("Unknown signal " +:+ name))
          ∨ ((∀ name, v ≠ VStr name) ∧ isinstance_int v = false
             ∧ e = TypeError ""))).
Proof.
  split.
  - intros name -> Hname%signal_unknown. apply code_fails.
    unfold normalize_code. by rewrite Hname.
  - intros e st' Hcode.
    destruct (normalize_code v) as [e0|[rv sn]] eqn:Hn.
    + rewrite (code_fails _ _ _ _ Hn) in Hcode. injection Hcode as <- <-.
      split; [done|]. unfold normalize_code in Hn.
      destruct v; cbn in Hn; try (right; by injection Hn as <-).
      * by destruct (PyDict.get _SIGNAL_NAMES (Z.b2z b)).
      * by destruct (PyDict.get _SIGNAL_NAMES n).
      * destruct (PyDict.get _SIGNAL_CODES s) eqn:Hs; [done|].
        injection Hn as <-. left. exists s.
        by split; [|split; [apply signal_unknown|]].
    + destruct (code_memo c v st rv sn Hn) as (k & Hk & _).
      rewrite Hk in Hcode. discriminate.
Qed.

Lemma signal_tables :
  NoDup Signals.*1 → NoDup Signals.*2 →
  _SIGNAL_CODES = (λ x : string * Z, (x.1, - x.2)) <$> Signals
  ∧ _SIGNAL_NAMES = (λ x : string * Z, (- x.2, x.1)) <$> Signals.
Proof.
  intros Hnames Hnums.
  assert (Hcodes : _SIGNAL_CODES = (λ x : string * Z, (x.1, - x.2)) <$> Signals).
  { unfold _SIGNAL_CODES, PyDict.comprehension.
    rewrite comprehension_distinct; [done|done|].
    intros x _. apply not_elem_of_nil. }
  split; [exact Hcodes|].
  unfold _SIGNAL_NAMES, PyDict.comprehension, PyDict.items.
  rewrite Hcodes. rewrite comprehension_distinct.
  - cbn [app]. rewrite <- list_fmap_compose. done.
  - rewrite <- list_fmap_compose.
    change (NoDup ((Z.opp ∘ snd) <$> Signals)).
    rewrite list_fmap_compose.
    apply NoDup_fmap; [|done]. intros a b. lia.
  - intros x _. apply not_elem_of_nil.
Qed.

Lemma signal_name (name : string) (signum : Z) :
  NoDup Signals.*1 → NoDup Signals.*2 → (name, signum) ∈ Signals →
  PyDict.get _SIGNAL_NAMES (- signum) = Some name.
Proof.
  intros Hnames Hnums Hin.
  destruct (signal_tables Hnames Hnums) as [_ ->].
  apply dict_get_elem.
  - rewrite <- list_fmap_compose.
    change (NoDup ((Z.opp ∘ snd) <$> Signals)).
    rewrite list_fmap_compose.
    apply NoDup_fmap; [|done]. intros a b. lia.
  - apply list_elem_of_fmap. by exists (name, signum).
Qed.

Lemma no_signal_name (n : Z) :
  NoDup Signals.*1 → NoDup Signals.*2 → - n ∉ Signals.*2 →
  PyDict.get _SIGNAL_NAMES n = None.
Proof.
  intros Hnames Hnums Hn.
  destruct (signal_tables Hnames Hnums) as [_ ->].
  apply dict_get_None. rewrite <- list_fmap_compose.
  intros ([name signum] & Heq & Hin)%list_elem_of_fmap. cbn in Heq.
  apply Hn. apply list_elem_of_fmap. exists (name, signum).
  split; [cbn; lia|done].
Qed.

(** X9.  The two signal tables invert each other when the names and the
    numbers of the host's enumeration are distinct: the name of a signal
    normalizes to the negative of its number and the name, the negative
    of its number normalizes to itself and the same name, and an [int]
    that is the negative of no signal number normalizes to itself
    without a name. *)
Theorem signal_round_trip (name : string) (signum n : Z) :
  NoDup Signals.*1 → NoDup Signals.*2 → (name, signum) ∈ Signals →
  normalize_code (VStr name) = inr (VInt (- signum), Some name)
  ∧ normalize_code (VInt (- signum)) = inr (VInt (- signum), Some name)
  ∧ (- n ∉ Signals.*2 → normalize_code (VInt n) = inr (VInt n, None)).
Proof.
  intros Hnames Hnums Hin. split; [|split].
  - apply normalize_name. by apply signal_code.
  - unfold normalize_code. cbn [isinstance_int int_key].
    by rewrite (signal_name name signum).
  - intros Hn. unfold normalize_code. cbn [isinstance_int int_key].
    by rewrite no_signal_name.
Qed.

(** A first lookup of a code makes one class: its name is the name of
    the class it is looked up on, then the signal name in quotes or the
    number in brackets; its base is that class. *)
Lemma code_fresh (c : cls) (v : value) (st : kinds) rv sn :
  normalize_code v = inr (rv, sn) →
  _subclasses st !! int_key rv = None →
  code c v st =
    (inr (Subclass (length (classes st))),
     {| classes := classes st ++
          [{| cls_name :=
                __name__ st c +:+ "[" +:+
                repr_index match sn with
                           | Some name =>
                               if truthy (VStr name) then VStr name else rv
                           | None => rv
                           end +:+ "]";
              cls_base := c;
              cls_returncode := rv |}];
        _subclasses :=
          <[int_key rv := Subclass (length (classes st))]> (_subclasses st) |}).
Proof.
  intros Hn Hk. unfold code. rewrite Hn, Hk. unfold setdefault.
  rewrite Hk. cbn [_subclasses]. by rewrite lookup_insert_eq.
Qed.

Lemma string_app_assoc (a b c : string) :
  (a +:+ b) +:+ c = a +:+ (b +:+ c).
Proof.
  induction a as [|x a IH]; [done|].
  change (String x ((a +:+ b) +:+ c) = String x (a +:+ (b +:+ c))).
  by f_equal.
Qed.

(** X10.  The name of a kind: with distinct names and numbers in the
    host's enumeration, the class made by the first lookup of a signal,
    by its name or by the negative of its number, is named
    [C['NAME']], and the class made by the first lookup of an [int] that
    is the negative of no signal number is named [C[n]], for [C] the
    name of the class the lookup is made on. *)
Theorem kind_name (c : cls) (st : kinds) (name : string) (signum n : Z) :
  NoDup Signals.*1 → NoDup Signals.*2 →
  (name, signum) ∈ Signals → name ≠ "" →
  (_subclasses st !! (- signum) = None →
   ∀ v, v = VStr name ∨ v = VInt (- signum) →
     (code c v st).1 = inr (Subclass (length (classes st)))
     ∧ cls_name <$> classes (code c v st).2 !! length (classes st)
       = Some (__name__ st c +:+ "['" +:+ name +:+ "']"))
  ∧ (- n ∉ Signals.*2 → _subclasses st !! n = None →
     (code c (VInt n) st).1 = inr (Subclass (length (classes st)))
     ∧ cls_name <$> classes (code c (VInt n) st).2 !! length (classes st)
       = Some (__name__ st c +:+ "[" +:+ pretty n +:+ "]")).
Proof.
  intros Hnames Hnums Hin Hname.
  assert (Hs : normalize_code (VStr name)
               = inr (VInt (- signum), Some name))
    by (apply normalize_name; by apply signal_code).
  assert (Hi : normalize_code (VInt (- signum))
               = inr (VInt (- signum), Some name)).
  { unfold normalize_code. cbn [isinstance_int int_key].
    by rewrite (signal_name name signum). }
  assert (Hn : - n ∉ Signals.*2 →
               normalize_code (VInt n) = inr (VInt n, None)).
  { intros Hno. unfold normalize_code. cbn [isinstance_int int_key].
    by rewrite no_signal_name. }
  assert (Htrue : truthy (VStr name) = true).
  { cbn. by destruct name. }
  split.
  - intros Hfresh v [->| ->].
    + rewrite (code_fresh c _ st _ _ Hs Hfresh), Htrue.
      cbn [fst snd classes].
      split; [done|]. rewrite lookup_app_r by lia.
      rewrite Nat.sub_diag. cbn.
      do 2 f_equal. rewrite !string_app_assoc. reflexivity.
    + rewrite (code_fresh c _ st _ _ Hi Hfresh), Htrue.
      cbn [fst snd classes].
      split; [done|]. rewrite lookup_app_r by lia.
      rewrite Nat.sub_diag. cbn.
      do 2 f_equal. rewrite !string_app_assoc. reflexivity.
  - intros Hno Hfresh. specialize (Hn Hno).
    rewrite (code_fresh c _ st _ _ Hn Hfresh). cbn [fst snd classes].
    split; [done|]. rewrite lookup_app_r by lia.
    by rewrite Nat.sub_diag.
Qed.

Lemma code_known (c c' : cls) (v : value) (st : kinds) :
  known st c' → known (code c v st).2 c'.
Proof.
  intros Hc'. destruct (normalize_code v) as [e|[rv sn]] eqn:Hn.
  { by rewrite (code_fails _ _ _ _ Hn). }
  destruct (code_unfold c v st rv sn Hn) as [name ->].
  destruct (_subclasses st !! int_key rv); [done|]. by apply known_grows.
Qed.

Lemma two_codes (st : kinds) (c c' : cls) (n n' : Z) (k k' : cls)
    (st1 st2 : kinds) :
  reachable st → known st c → known st c' → n ≠ n' →
  code c (VInt n) st = (inr k, st1) →
  code c' (VInt n') st1 = (inr k', st2) →
  ∃ id id', k = Subclass id ∧ k' = Subclass id' ∧ id ≠ id'.
Proof.
  intros Hreach Hc Hc' Hne Hcode Hcode'.
  assert (Hst1 : reachable st1).
  { replace st1 with (code c (VInt n) st).2 by (by rewrite Hcode).
    by constructor. }
  assert (Hst2 : consistent st2).
  { replace st2 with (code c' (VInt n') st1).2 by (by rewrite Hcode').
    apply reachable_consistent. constructor; [done|].
    replace st1 with (code c (VInt n) st).2 by (by rewrite Hcode).
    by apply code_known. }
  destruct (normalize_int n) as [sn Hn].
  destruct (normalize_int n') as [sn' Hn'].
  destruct (code_memo c _ st _ _ Hn) as (k0 & Hk0 & Hmemo).
  rewrite Hcode in Hk0, Hmemo. injection Hk0 as <-. cbn in Hmemo.
  destruct (code_memo c' _ st1 _ _ Hn') as (k0' & Hk0' & Hmemo').
  rewrite Hcode' in Hk0', Hmemo'. injection Hk0' as <-. cbn in Hmemo'.
  pose proof (code_keeps c' (VInt n') st1 n k Hmemo) as Hkept.
  rewrite Hcode' in Hkept. cbn in Hkept.
  destruct Hst2 as [_ Hmemo2].
  destruct (Hmemo2 _ _ Hkept) as (id & o & -> & Hid & Ho).
  destruct (Hmemo2 _ _ Hmemo') as (id' & o' & -> & Hid' & Ho').
  exists id, id'. split; [done|]. split; [done|]. congruence.
Qed.

(** X11.  Different codes have different kinds: in every state the
    module can be in, the lookups of two different [int]s return
    different class objects. *)
Theorem distinct_codes_distinct_kinds (st : kinds) (c c' : cls) (n n' : Z)
    (k k' : cls) (st1 st2 : kinds) :
  reachable st → known st c → known st c' → n ≠ n' →
  code c (VInt n) st = (inr k, st1) →
  code c' (VInt n') st1 = (inr k', st2) →
  k ≠ k'.
Proof.
  intros Hreach Hc Hc' Hne Hcode Hcode'.
  destruct (two_codes st c c' n n' k k' st1 st2)
    as (id & id' & -> & -> & Hid); [done..|].
  congruence.
Qed.

(** X12.  A kind first looked up on a class is made a subclass of that
    class: in every state the module can be in, the first lookup of an
    [int] on a class that exists returns a new class, and [issubclass]
    holds of it and the class the lookup was made on; so a handler for
    [CommandError.code(9)] catches the errors of a code first looked up
    as [CommandError.code(9).code(10)]. *)
Theorem lookup_on_kind_subclasses (st : kinds) (c : cls) (n : Z) :
  reachable st → known st c → _subclasses st !! n = None →
  ∃ k st',
    code c (VInt n) st = (inr k, st')
    ∧ k = Subclass (length (classes st))
    ∧ ¬ known st k
    ∧ issubclass st' k c = true
    ∧ issubclass st' k CommandError = true.
Proof.
  intros Hreach Hc Hfresh. destruct (normalize_int n) as [sn Hn].
  eexists _, _. split; [exact (code_fresh c _ st _ _ Hn Hfresh)|].
  split; [done|]. split; [cbn; lia|]. split.
  - unfold issubclass. cbn [classes]. rewrite length_app, Nat.add_1_r.
    cbn [issubclass_along]. destruct (decide (Subclass _ = c)) as [|_];
      [done|].
    cbn [classes]. rewrite lookup_app_r by lia. rewrite Nat.sub_diag.
    cbn. destruct (length (classes st)); cbn; by rewrite decide_True.
  - apply known_issubclass.
    + pose proof (reachable_consistent _ (reachable_code st c (VInt n)
                                            Hreach Hc)) as Hcons.
      by rewrite (code_fresh c _ st _ _ Hn Hfresh) in Hcons.
    + cbn. rewrite length_app. cbn. lia.
Qed.

Lemma code_flat (v : value) (st : kinds) :
  flat st → flat (code CommandError v st).2.
Proof.
  intros Hflat. destruct (normalize_code v) as [e|[rv sn]] eqn:Hn.
  { by rewrite (code_fails _ _ _ _ Hn). }
  destruct (code_unfold CommandError v st rv sn Hn) as [name ->].
  destruct (_subclasses st !! int_key rv); [done|].
  intros id o Hid. cbn [snd classes] in Hid.
  destruct (decide (id < length (classes st))%nat) as [Hlt|Hge].
  - rewrite lookup_app_l in Hid by done. by eapply Hflat.
  - rewrite lookup_app_r in Hid by lia.
    destruct (id - length (classes st))%nat; [|done]. by injection Hid as <-.
Qed.

Lemma flat_unrelated (st : kinds) (i j : nat) :
  flat st → i ≠ j → issubclass st (Subclass i) (Subclass j) = false.
Proof.
  intros Hflat Hne. unfold issubclass.
  destruct (length (classes st)) as [|fuel]; cbn [issubclass_along];
    (rewrite decide_False by congruence); [done|].
  destruct (classes st !! i) as [o|] eqn:Ho; [|done].
  rewrite (Hflat i o Ho). destruct fuel; cbn; by rewrite decide_False.
Qed.

(** X13.  Kinds looked up on [CommandError] itself do not catch each
    other: in a state the module can be in where every class was made by
    a lookup on [CommandError], the kinds of two different [int]s are
    not subclasses of one another, so a handler for
    [CommandError.code(9)] lets the error of the code 10 pass. *)
Theorem sibling_kinds (st : kinds) (n n' : Z) (k k' : cls)
    (st1 st2 : kinds) :
  reachable st → flat st → n ≠ n' →
  code CommandError (VInt n) st = (inr k, st1) →
  code CommandError (VInt n') st1 = (inr k', st2) →
  issubclass st2 k k' = false ∧ issubclass st2 k' k = false.
Proof.
  intros Hreach Hflat Hne Hcode Hcode'.
  destruct (two_codes st CommandError CommandError n n' k k' st1 st2)
    as (id & id' & -> & -> & Hid); [done..|].
  assert (Hflat2 : flat st2).
  { replace st2 with (code CommandError (VInt n') st1).2
      by (by rewrite Hcode').
    apply code_flat.
    replace st1 with (code CommandError (VInt n) st).2 by (by rewrite Hcode).
    by apply code_flat. }
  split; (apply flat_unrelated; [done|congruence]).
Qed.

(** X14.  Every class made stays in the memo: in every state the module
    can be in, each class is the entry of [_subclasses] under its own
    [returncode], and there are as many classes as entries; no lookup
    makes a second class for a code. *)
Theorem memo_holds_every_class (st : kinds) :
  reachable st →
  (∀ id o, classes st !! id = Some o →
     _subclasses st !! int_key (cls_returncode o) = Some (Subclass id))
  ∧ size (_subclasses st) = length (classes st).
Proof.
  induction 1 as [|st c v Hreach [IHc IHs] Hc].
  - split; [intros id o H; cbn in H; by rewrite lookup_nil in H|done].
  - destruct (normalize_code v) as [e|[rv sn]] eqn:Hn.
    { by rewrite (code_fails _ _ _ _ Hn). }
    destruct (code_unfold c v st rv sn Hn) as [name ->].
    destruct (_subclasses st !! int_key rv) as [k|] eqn:Hk; [by split|].
    cbn [snd classes _subclasses]. split.
    + intros id o Hid.
      destruct (decide (id < length (classes st))%nat) as [Hlt|Hge].
      * rewrite lookup_app_l in Hid by done. specialize (IHc id o Hid).
        rewrite lookup_insert_ne; [done|]. congruence.
      * rewrite lookup_app_r in Hid by lia.
        destruct (id - length (classes st))%nat eqn:Hd; [|done].
        injection Hid as <-. cbn [cls_returncode].
        rewrite lookup_insert_eq. do 2 f_equal. lia.
    + rewrite map_size_insert_None by done. rewrite length_app. cbn. lia.
Qed.

(** X15.  The message of an error: with distinct names and numbers in the
    host's enumeration, the error of a return code that is the negative
    of a signal number reads [Command '...' failed with NAME], and the
    error of any other [int] reads
    [Command '...' failed with status code n]; the command is the
    string of [args], or its items joined by spaces. *)
Theorem error_message (e : error_instance) (n : Z) (name : string)
    (signum : Z) :
  NoDup Signals.*1 → NoDup Signals.*2 → inst_returncode e = VInt n →
  let command :=
    match args (inst_process e) with
    | CmdStr s => str (value_of_strlike s)
    | CmdSeq argv =>
        PyStr.join " " (map (λ arg, str (value_of_strlike arg)) argv)
    end in
  ((name, signum) ∈ Signals → n = - signum →
   CommandError__str__ e
   = inr ("Command '" +:+ command +:+ "' failed with " +:+ name))
  ∧ (- n ∉ Signals.*2 →
     CommandError__str__ e
     = inr ("Command '" +:+ command +:+ "' failed with "
            +:+ "status code " +:+ str (VInt n))).
Proof.
  intros Hnames Hnums Hrc command. unfold CommandError__str__.
  rewrite Hrc. cbn [signal_name_of int_key]. split.
  - intros Hin ->. by rewrite (signal_name name signum).
  - intros Hno. by rewrite no_signal_name.
Qed.

(** *** Waiting and checking *)

(** X16.  [check_returncode] waits without a timeout; an exception of the
    wait goes on; a return code 0 returns; any other return code raises
    an instance of the class that the lookup of the code on
    [CommandError] gives, with the code and the process in it, and makes
    no call into the host after the wait. *)
Theorem check_returncode_raises (self : Process) (m : machine) :
  match wait self None m with
  | (inl e, m1) => check_returncode self m = (inl e, m1)
  | (inr rc, m1) =>
      (rc = 0 → check_returncode self m = (inr tt, m1))
      ∧ (rc ≠ 0 →
         ∃ k st',
           code CommandError (VInt rc) (kinds_of m1) = (inr k, st')
           ∧ check_returncode self m
             = (inl (Raised {| inst_class := k; inst_returncode := VInt rc;
                               inst_process := self |}),
                {| history := history m1; kinds_of := st' |}))
  end.
Proof.
  unfold check_returncode, bind.
  destruct (wait self None m) as [[e|rc] m1]; [done|]. split.
  - by intros ->.
  - intros Hrc. destruct (Z.eqb_spec rc 0) as [|_]; [done|]. cbn [negb].
    destruct (normalize_int rc) as [sn Hn].
    destruct (code_memo CommandError (VInt rc) (kinds_of m1) _ _ Hn)
      as (k & Hk & _).
    exists k, (code CommandError (VInt rc) (kinds_of m1)).2.
    split; [exact Hk|]. unfold on_kinds, instantiate. by rewrite Hk.
Qed.

Lemma only_waits_app (l1 l2 : list event) :
  only_waits l1 → only_waits l2 → only_waits (l1 ++ l2).
Proof. apply Forall_app_2. Qed.

(** The calls of a wait: clock readings and waits, on a prefix of the
    pipeline taken from its head, and on all of it when the wait
    returns. *)
Lemma wait_calls (self : Process) (timeout : option float) (m : machine) :
  ∃ calls n,
    history (wait self timeout m).2 = history m ++ calls
    ∧ only_waits calls
    ∧ (n ≤ length (chain self))%nat
    ∧ waited calls = take n (pid <$> chain self)
    ∧ (∀ rc, (wait self timeout m).1 = inr rc → n = length (chain self)).
Proof.
  revert self timeout m. fix IH 1.
  intros [pid0 args0 check0 tail0 i o e] timeout m.
  pose (self := mkProcess pid0 args0 check0 tail0 i o e).
  change (mkProcess pid0 args0 check0 tail0 i o e) with self.
  assert (Hown : ∀ t' m0 calls0,
    history m0 = history m ++ calls0 → only_waits calls0 →
    waited calls0 = pid <$> match tail0 with
                            | Some t => chain t
                            | None => []
                            end →
    ∃ calls n,
      history (Popen_wait self t' m0).2 = history m ++ calls
      ∧ only_waits calls
      ∧ (n ≤ length (chain self))%nat
      ∧ waited calls = take n (pid <$> chain self)
      ∧ (∀ rc, (Popen_wait self t' m0).1 = inr rc →
           n = length (chain self))).
  { intros t' m0 calls0 Hh Ho Hw.
    exists (calls0 ++ [EvWait pid0 t']), (length (chain self)).
    cbn [chain tail self]. split.
    { cbn. rewrite Hh. by rewrite <- app_assoc. }
    split. { apply only_waits_app; [done|]. by repeat constructor. }
    split; [done|]. split; [|done].
    rewrite waited_app, Hw. cbn [chain tail].
    rewrite <- (length_fmap pid), firstn_all, fmap_app. done. }
  subst self. destruct tail0 as [t|].
  - (* with a predecessor *)
    destruct timeout as [timeout|].
    + destruct (IH t (Some timeout) (record EvTime m))
        as (ct & nt & Hh & Ho & Hle & Hw & Hall).
      destruct (wait t (Some timeout) (record EvTime m))
        as [[err|rc] m2] eqn:Hwt; cbn [fst snd] in *.
      * match goal with
        | |- context [wait ?s ?t m] =>
            assert (Heq : wait s t m = (inl err, m2))
              by (cbn [wait tail]; unfold bind, _time; by rewrite Hwt)
        end.
        rewrite Heq. exists (EvTime :: ct), nt. cbn [fst snd chain tail].
        split; [rewrite Hh; cbn; by rewrite <- app_assoc|].
        split; [by constructor|].
        split; [rewrite length_app; lia|].
        split; [|done].
        change (waited (EvTime :: ct)) with (waited ct). rewrite Hw.
        rewrite fmap_app, take_app_le; [done|]. by rewrite length_fmap.
      * match goal with
        | |- context [wait ?s ?t m] =>
            assert (Heq : wait s t m
                          = Popen_wait s
                              (Some (host_time (history m) + timeout
                                     - host_time (history m2))%float)
                              (record EvTime m2))
              by (cbn [wait tail]; unfold bind, _time, ret; by rewrite Hwt)
        end.
        rewrite Heq. specialize (Hall rc eq_refl). subst nt.
        rewrite <- (length_fmap pid), firstn_all in Hw.
        apply (Hown _ _ (EvTime :: ct ++ [EvTime])).
        -- cbn. rewrite Hh. cbn. by rewrite <- !app_assoc.
        -- constructor; [done|]. apply only_waits_app; [done|].
           by repeat constructor.
        -- change (waited (EvTime :: ct ++ [EvTime]))
             with (waited (ct ++ [EvTime])).
           rewrite waited_app, Hw. cbn. by rewrite app_nil_r.
    + destruct (IH t None m) as (ct & nt & Hh & Ho & Hle & Hw & Hall).
      destruct (wait t None m) as [[err|rc] m2] eqn:Hwt; cbn [fst snd] in *.
      * match goal with
        | |- context [wait ?s ?t m] =>
            assert (Heq : wait s t m = (inl err, m2))
              by (cbn [wait tail]; unfold bind; by rewrite Hwt)
        end.
        rewrite Heq. exists ct, nt. cbn [fst snd chain tail].
        split; [done|]. split; [done|].
        split; [rewrite length_app; lia|].
        split; [|done]. rewrite Hw.
        rewrite fmap_app, take_app_le; [done|]. by rewrite length_fmap.
      * match goal with
        | |- context [wait ?s ?t m] =>
            assert (Heq : wait s t m = Popen_wait s None m2)
              by (cbn [wait tail]; unfold bind, ret; by rewrite Hwt)
        end.
        rewrite Heq. specialize (Hall rc eq_refl). subst nt.
        rewrite <- (length_fmap pid), firstn_all in Hw.
        by apply (Hown _ _ ct).
  - (* the head of a pipeline *)
    destruct timeout as [timeout|].
    + match goal with
      | |- context [wait ?s ?t m] =>
          assert (Heq : wait s t m
                        = Popen_wait s
                            (Some (host_time (history m) + timeout
                                   - host_time (history (record EvTime m)))%float)
                            (record EvTime (record EvTime m)))
            by (cbn [wait tail]; unfold bind, _time, ret; done)
      end.
      rewrite Heq. apply (Hown _ _ [EvTime; EvTime]).
      * cbn. by rewrite <- app_assoc.
      * by repeat constructor.
      * done.
    + match goal with
      | |- context [wait ?s ?t m] =>
          assert (Heq : wait s t m = Popen_wait s None m)
            by (cbn [wait tail]; unfold bind, ret; done)
      end.
      rewrite Heq.
      apply (Hown _ _ []); [by rewrite app_nil_r|constructor|done].
Qed.



(** X17.  The order of waiting: a wait, with a timeout or without, calls
    the host only to read the clock and to wait; it waits on the
    processes of the pipeline from the head to the handle, each once,
    stops at the first wait that raises, and returns only after it has
    waited on every process of the pipeline. *)
Theorem wait_order (self : Process) (timeout : option float) (m : machine) :
  ∃ calls,
    history (wait self timeout m).2 = history m ++ calls
    ∧ only_waits calls
    ∧ waited calls `prefix_of` (pid <$> chain self)
    ∧ (∀ rc, (wait self timeout m).1 = inr rc →
         waited calls = pid <$> chain self).
Proof.
  destruct (wait_calls self timeout m)
    as (calls & n & Hh & Ho & Hle & Hw & Hall).
  exists calls. split; [done|]. split; [done|]. split.
  - rewrite Hw. apply prefix_take.
  - intros rc Hrc. rewrite Hw, (Hall rc Hrc).
    by rewrite <- (length_fmap pid), firstn_all.
Qed.

(** *** What reaches the host at a launch *)

Lemma configure_options (args : cmd) (tail : option Process)
    (input : option input_data) (capture_stdout capture_stderr : bool)
    (kwargs : gmap string value) :
  (∃ msg,
     configure args tail input capture_stdout capture_stderr kwargs
     = inl (ValueError msg))
  ∨ (∃ args' kwargs',
       configure args tail input capture_stdout capture_stderr kwargs
       = inr (args', kwargs')
       ∧ kwargs' !! "universal_newlines" = Some (VBool true)
       ∧ kwargs' !! "stdout"
         = (if capture_stdout then Some PIPE else kwargs !! "stdout")
       ∧ kwargs' !! "stderr"
         = (if capture_stderr then Some PIPE else kwargs !! "stderr")
       ∧ kwargs' !! "stdin"
         = match input, tail with
           | Some _, _ => Some PIPE
           | None, Some t => Some (value_of_stream (stdout t))
           | None, None => kwargs !! "stdin"
           end
       ∧ (∀ k, k ∉ ["universal_newlines"; "stdin"; "stdout"; "stderr"] →
            kwargs' !! k = kwargs !! k)
       ∧ args'
         = match args with
           | CmdSeq argv =>
               if truthy (kwargs_get kwargs "shell") then
                 CmdStr (Text (PyStr.join " "
                                 (map (λ arg, str (value_of_strlike arg))
                                    argv)))
               else args
           | CmdStr _ => args
           end).
Proof.
  unfold configure.
  destruct (negb (is_True (default (VBool true)
                             (kwargs !! "universal_newlines")))); [eauto|].
  cbn [bind_exn].
  destruct tail as [t|]; [destruct (stdout t) as [s|] eqn:Es|].
  all: destruct (is_None (kwargs_get kwargs "stdin")) eqn:Ein,
           (is_None (kwargs_get kwargs "stdout")) eqn:Eout,
           (is_None (kwargs_get kwargs "stderr")) eqn:Eerr,
           input as [d|], capture_stdout, capture_stderr;
    repeat first
      [ rewrite kwargs_get_insert_ne by done
      | rewrite kwargs_get_insert_eq
      | rewrite Ein | rewrite Eout | rewrite Eerr
      | progress cbn [bind_exn negb is_None PIPE value_of_stream] ];
    try (left; eauto; fail).
  all: right; eexists _, _; split; [reflexivity|].
  all: repeat split;
    try (intros k Hk; rewrite !not_elem_of_cons in Hk;
         destruct Hk as (? & ? & ? & ? & _));
    repeat first
      [ rewrite lookup_insert_eq | rewrite lookup_insert_ne by done ];
    done.
Qed.

(** X18.  What a construction hands to [subprocess.Popen]: either it is
    refused with a [ValueError] before any call into the host, or its
    first call into the host is the launch, with [universal_newlines]
    set to [True], a pipe under [stdout] or [stderr] where the capture
    is asked for, under [stdin] a pipe for literal input and else the
    output stream of the predecessor, every other option as the caller
    gave it, and a sequence of arguments joined by spaces into one
    command string when the option [shell] is true. *)
Theorem launch_options (args : cmd) (check : bool)
    (tail : option Process) (input : option input_data) (wait_ : bool)
    (timeout : option float) (capture_stdout capture_stderr : bool)
    (kwargs : gmap string value) (m : machine) :
  (∃ msg,
     Process__init__ args check tail input wait_ timeout
       capture_stdout capture_stderr kwargs m
     = (inl (ValueError msg), m))
  ∨ (∃ args' kwargs' later,
       history (Process__init__ args check tail input wait_ timeout
                  capture_stdout capture_stderr kwargs m).2
       = history m ++ EvPopen args' kwargs' :: later
       ∧ kwargs' !! "universal_newlines" = Some (VBool true)
       ∧ kwargs' !! "stdout"
         = (if capture_stdout then Some PIPE else kwargs !! "stdout")
       ∧ kwargs' !! "stderr"
         = (if capture_stderr then Some PIPE else kwargs !! "stderr")
       ∧ kwargs' !! "stdin"
         = match input, tail with
           | Some _, _ => Some PIPE
           | None, Some t => Some (value_of_stream (stdout t))
           | None, None => kwargs !! "stdin"
           end
       ∧ (∀ k, k ∉ ["universal_newlines"; "stdin"; "stdout"; "stderr"] →
            kwargs' !! k = kwargs !! k)
       ∧ args'
         = match args with
           | CmdSeq argv =>
               if truthy (kwargs_get kwargs "shell") then
                 CmdStr (Text (PyStr.join " "
                                 (map (λ arg, str (value_of_strlike arg))
                                    argv)))
               else args
           | CmdStr _ => args
           end).
Proof.
  destruct (configure_options args tail input capture_stdout capture_stderr
              kwargs) as [[msg Hc]|(args' & kwargs' & Hc & Hrest)].
  { left. exists msg. unfold Process__init__. by rewrite Hc. }
  right. exists args', kwargs'.
  unfold Process__init__. rewrite Hc. unfold bind at 1.
  unfold launch at 1. unfold bind at 1. unfold os_Popen at 1.
  destruct (host_Popen (history m) args' kwargs') as [e|popen].
  { exists []. by split. }
  cbn [ret].
  match goal with
  | |- context [bind (write_input ?s input) ?k ?m1] =>
      assert (Hext : extends m1 (bind (write_input s input) k m1).2)
  end.
  { apply bind_extends; [intros ?; apply write_input_extends|].
    intros _ m'. unfold after_input.
    apply bind_extends; [intros ?; apply initial_wait_extends|].
    intros ? ?. apply ret_extends. }
  destruct Hext as [later Hlater]. exists later. split; [|done].
  rewrite Hlater. cbn. by rewrite <- app_assoc.
Qed.

(** *** Cleanup *)

Lemma try_finally_extends {A} (body : M A) (fin : M unit) :
  (∀ m, extends m (body m).2) → (∀ m, extends m (fin m).2) →
  ∀ m, extends m (try_finally body fin m).2.
Proof.
  intros Hb Hf m. unfold try_finally. specialize (Hb m).
  destruct (body m) as [r m1]. specialize (Hf m1).
  destruct (fin m1) as [[e|u] m2]; by eapply extends_trans.
Qed.

Lemma close_each_extends (streams : list (option stream)) (m : machine) :
  extends m (close_each streams m).2.
Proof.
  revert m. induction streams as [|[s|] streams IH]; intros m;
    cbn [close_each]; [apply ret_extends| |apply IH].
  apply bind_extends; [intros ?; apply extends_record|intros _; apply IH].
Qed.


Lemma Process__exit__extends (self : Process) (m : machine) :
  extends m (Process__exit__ self m).2.
Proof.
  revert self m. fix IH 1.
  intros [pid0 args0 check0 tail0 i o e] m. cbn [Process__exit__].
  apply bind_extends.
  - apply try_finally_extends.
    + apply bind_extends.
      * destruct tail0 as [t|]; cbn [tail]; [|intros ?; apply ret_extends].
        apply bind_extends; [apply IH|intros ? ?; apply ret_extends].
      * intros _ ?. apply close_each_extends.
    + apply bind_extends; [intros ?; apply wait_extends|].
      intros ? ?. apply ret_extends.
  - intros _. apply bind_extends; [|intros ? ?; apply ret_extends].
    intros m'. cbn [check]. destruct check0;
      [apply check_returncode_extends|apply ret_extends].
Qed.





(** X20.  Reading the output of a process that captures both of its
    output streams, or neither: [__str__] and [__bytes__] read no
    stream; they make the calls of [__exit__], so the streams are
    closed and the pipeline is waited on, and then raise the
    [AttributeError] of [captured], unless [__exit__] raises, whose
    exception then takes its place. *)
Theorem str_needs_one_capture {A} (read : stream → M A) (self : Process)
    (m : machine) :
  (is_Some (stdout self) ↔ is_Some (stderr self)) →
  ∃ msg,
    captured self = inl (AttributeError msg)
    ∧ (Process__str__ read self m).2 = (Process__exit__ self m).2
    ∧ (∀ b, (Process__exit__ self m).1 = inr b →
         (Process__str__ read self m).1 = inl (AttributeError msg))
    ∧ (∀ e, (Process__exit__ self m).1 = inl e →
         (Process__str__ read self m).1 = inl e).
Proof.
  intros Hboth. unfold Process__str__, with_Process, captured, try_finally.
  destruct (stdout self) as [so|], (stderr self) as [se|];
    [| destruct Hboth as [Hb _]; destruct (Hb (mk_is_Some _ _ eq_refl));
       done
     | destruct Hboth as [_ Hb]; destruct (Hb (mk_is_Some _ _ eq_refl));
       done
     |].
  all: eexists; split; [reflexivity|]; unfold raise, bind;
    destruct (Process__exit__ self m) as [[err|b] m1]; cbn [fst snd ret];
    repeat split; try done; by intros ? [= <-].
Qed.

End Host.

(** ** The module on the host of the examples *)

Abbreviation demo_parse := (_parse demo_str true) (only parsing).
Abbreviation demo_code := (code demo_Signals) (only parsing).
Abbreviation demo_instantiate := (instantiate demo_Signals) (only parsing).
Abbreviation demo_Process :=
  (Process__init__ demo_str demo_Signals 22 32
     demo_Popen demo_write demo_close demo_wait demo_time) (only parsing).
Abbreviation demo_call :=
  (Command__call__ demo_str true demo_Signals 22 32
     demo_Popen demo_write demo_close demo_wait demo_time) (only parsing).
Abbreviation sh := {| args_ := []; opts_ := ∅ |} (only parsing).

(** The doctest of [_parse] and the cases of [test_argparsing]. *)
Example parse_doctest :
  tuple (demo_parse [VStr "foo"; VBytes [x62; x61; x72]%byte]
           [("x", VBool true); ("y", VBool false); ("baz", VInt 23)])
  = inr [Text "-x"; Text "--baz"; Text "23"; Text "foo";
         Bytes [x62; x61; x72]%byte].
Proof. vm_compute. reflexivity. Qed.

Example parse_flag :
  tuple (demo_parse [VStr "foo"; VStr "bar"; VInt 2] [("x", VBool true)])
  = inr [Text "-x"; Text "foo"; Text "bar"; Text "2"].
Proof. vm_compute. reflexivity. Qed.

Example parse_false : tuple (demo_parse [] [("y", VBool false); ("z", VBool false)]) = inr [].
Proof. reflexivity. Qed.

Example parse_long : tuple (demo_parse [] [("foo", VInt 10)]) = inr [Text "--foo"; Text "10"].
Proof. vm_compute. reflexivity. Qed.

Example parse_dashed :
  tuple (demo_parse [] [("_foo", VBool true)]) = inr [Text "-foo"]
  ∧ tuple (demo_parse [] [("__x_y_z", VStr "y")]) = inr [Text "--x-y-z"; Text "y"]
  ∧ tuple (demo_parse [] [("__x", VBool true)]) = inr [Text "--x"].
Proof. repeat split; vm_compute; reflexivity. Qed.

Example parse_type_conversion :
  tuple (demo_parse [demo_stringable] []) = inr [Text "foo"]
  ∧ tuple (demo_parse [demo_unstringable] [])
    = inl (TypeError
             "Object of type 'UnstringableType' can't be converted to string").
Proof. split; vm_compute; reflexivity. Qed.

(** [test_is_reserved]. *)
Example is_reserved_cases :
  _is_reserved "env_" = true ∧ _is_reserved "__" = false
  ∧ _is_reserved "foo" = false ∧ _is_reserved "__wrapped__" = true.
Proof. repeat split; reflexivity. Qed.

(** The identities and names of [test_commanderror]. *)
Example commanderror_cases :
  let st := (demo_code CommandError (VInt 10) no_kinds).2 in
  (demo_code CommandError (VInt 10) no_kinds).1 = inr (Subclass 0)
  ∧ (demo_code CommandError (VInt 10) st).1 = inr (Subclass 0)
  ∧ (demo_code CommandError (VInt 9) st).1 = inr (Subclass 1)
  ∧ (demo_code (Subclass 0) (VInt 10) st).1 = inr (Subclass 0)
  ∧ (demo_code CommandError (VStr "SIGTERM") st).1
    = (demo_code CommandError (VInt (-15)) st).1
  ∧ cls_name <$> classes (demo_code CommandError (VInt (-15)) st).2 !! 1%nat
    = Some "CommandError['SIGTERM']"
  ∧ cls_name <$> classes (demo_code CommandError (VInt 5) st).2 !! 1%nat
    = Some "CommandError[5]"
  ∧ (demo_code CommandError (VStr "SIGFOO") st).1
    = inl (ValueError "Unknown signal SIGFOO").
Proof. repeat split; vm_compute; reflexivity. Qed.

(** [test_disallowed_arguments]. *)
Example disallowed_arguments :
  (demo_Process (CmdSeq [Text "true"]) true None None false None false false
     {["universal_newlines" := VBool false]} demo_machine).1
  = inl (ValueError "Can't override universal_newlines")
  ∧ (demo_Process (CmdSeq [Text "true"]) true None None false None true false
       {["stdout" := PIPE]} demo_machine).1
    = inl (ValueError "Can't capture stdout if redirecting it")
  ∧ (demo_Process (CmdSeq [Text "true"]) true None None false None false true
       {["stderr" := PIPE]} demo_machine).1
    = inl (ValueError "Can't capture stderr if redirecting it")
  ∧ (demo_Process (CmdSeq [Text "true"]) true None None false None false true
       {["stdout" := PIPE]} demo_machine).1
    = inr {| pid := 0; args := CmdSeq [Text "true"]; check := true;
             tail := None; stdin := None; stdout := Some 1%nat;
             stderr := Some 2%nat |}.
Proof. repeat split; vm_compute; reflexivity. Qed.

(** The docstring of [Command.__call__]: [sh.foo('bar', baz=3, cwd_='/')]. *)
Example call_docstring :
  ∃ process_kwargs,
    call_arguments demo_str true {| args_ := [Text "foo"]; opts_ := ∅ |}
      [VStr "bar"] [("baz", VInt 3); ("cwd_", VStr "/")]
    = inr (CmdSeq [Text "foo"; Text "--baz"; Text "3"; Text "bar"],
           process_kwargs)
    ∧ process_kwargs !! "cwd" = Some (VStr "/")
    ∧ process_kwargs !! "wait" = Some (VBool true).
Proof. eexists. split; [vm_compute; reflexivity|]. split; vm_compute; reflexivity. Qed.

(** ** The theorems at concrete inputs *)

(** [kind_identity] on the signal [SIGTERM] of the example host. *)
Lemma kind_identity_witness :
  NoDup demo_Signals.*1
  ∧ ("SIGTERM", 15) ∈ demo_Signals
  ∧ ∃ k st',
      demo_code CommandError (VStr "SIGTERM") no_kinds = (inr k, st')
      ∧ (demo_code (Subclass 0) (VInt (-15))
           (lookups demo_Signals [(CommandError, VInt 9)] st')).1 = inr k.
Proof.
  assert (Hnd : NoDup demo_Signals.*1).
  { apply (bool_decide_unpack _). vm_compute. exact I. }
  assert (Hin : ("SIGTERM", 15) ∈ demo_Signals).
  { apply (bool_decide_unpack _). vm_compute. exact I. }
  split; [exact Hnd|]. split; [exact Hin|].
  destruct (kind_identity demo_Signals no_kinds CommandError (Subclass 0)
              [(CommandError, VInt 9)] 10 "SIGTERM" 15 Hnd Hin)
    as (_ & (k & st' & Hname & _ & Hnumber) & _).
  exists k, st'. split; assumption.
Defined.


(** [call_routes] on [sh.foo('bar', baz=3, cwd_='/')]. *)
Lemma call_routes_witness :
  NoDup [("baz", VInt 3); ("cwd_", VStr "/")].*1
  ∧ ∃ process_kwargs : gmap string value,
      demo_call {| args_ := [Text "foo"]; opts_ := ∅ |} [VStr "bar"]
        [("baz", VInt 3); ("cwd_", VStr "/")]
      = Process_call demo_str demo_Signals 22 32
          demo_Popen demo_write demo_close demo_wait demo_time
          (CmdSeq [Text "foo"; Text "--baz"; Text "3"; Text "bar"])
          process_kwargs
      ∧ process_kwargs !! "cwd" = Some (VStr "/")
      ∧ process_kwargs !! "wait" = Some (VBool true)
      ∧ process_kwargs !! "baz" = None.
Proof.
  assert (Hnd : NoDup [("baz", VInt 3); ("cwd_", VStr "/")].*1).
  { apply (bool_decide_unpack _). vm_compute. exact I. }
  split; [exact Hnd|].
  destruct (call_routes demo_str true demo_Signals 22 32
              demo_Popen demo_write demo_close demo_wait demo_time
              {| args_ := [Text "foo"]; opts_ := ∅ |} [VStr "bar"]
              [("baz", VInt 3); ("cwd_", VStr "/")] Hnd)
    as (process_kwargs & Hcall & _ & Hall).
  exists process_kwargs. split; [exact Hcall|].
  split; [|split]; rewrite Hall; reflexivity.
Defined.

(** [base_constructs_specific] when the module is loaded. *)
Lemma base_constructs_specific_witness :
  reachable demo_Signals no_kinds
  ∧ ∃ k st',
      demo_instantiate CommandError (VInt 10) demo_true no_kinds
      = (inr {| inst_class := k; inst_returncode := VInt 10;
                inst_process := demo_true |}, st')
      ∧ issubclass st' k CommandError = true.
Proof.
  split; [constructor|].
  destruct (base_constructs_specific demo_Signals no_kinds 10 demo_true
              (reachable_loaded demo_Signals))
    as (k & st' & id & o & _ & Hnew & _ & _ & _ & Hsub & _).
  exists k, st'. split; assumption.
Defined.

(** [specific_kind_not_instantiable] on the class of the code 10. *)
Lemma specific_kind_not_instantiable_witness :
  reachable demo_Signals no_kinds
  ∧ known no_kinds CommandError
  ∧ demo_code CommandError (VInt 10) no_kinds
    = (inr (Subclass 0), (demo_code CommandError (VInt 10) no_kinds).2)
  ∧ demo_instantiate (Subclass 0) (VInt 10) demo_true
      (demo_code CommandError (VInt 10) no_kinds).2
    = (inl (TypeError "Cannot instantiate CommandError subclasses"),
       (demo_code CommandError (VInt 10) no_kinds).2)
  ∧ ∃ id st1,
      demo_instantiate CommandError (VInt 1) demo_true
        (demo_code CommandError (VInt 10) no_kinds).2
      = (inr {| inst_class := Subclass id; inst_returncode := VInt 1;
                inst_process := demo_true |}, st1).
Proof.
  split; [constructor|]. split; [exact I|]. split; [reflexivity|].
  destruct (specific_kind_not_instantiable demo_Signals no_kinds CommandError
              (VInt 10) (Subclass 0)
              (demo_code CommandError (VInt 10) no_kinds).2
              (VInt 10) demo_true (reachable_loaded demo_Signals) I
              eq_refl) as [Hspecific Hbase].
  split; [exact Hspecific|].
  destruct (Hbase 1 demo_true) as (id & st1 & _ & Hinst).
  exists id, st1. exact Hinst.
Defined.

(** [conflicting_options_refused] on
    [Process(['true'], stdout=PIPE, capture_stdout=True)]. *)
Lemma conflicting_options_refused_witness :
  conflicting None None true false {["stdout" := PIPE]}
  ∧ ∃ msg,
      demo_Process (CmdSeq [Text "true"]) true None None false None true false
        {["stdout" := PIPE]} demo_machine
      = (inl (ValueError msg), demo_machine).
Proof.
  assert (Hc : conflicting None None true false {["stdout" := PIPE]}).
  { right. right. right. left. split; reflexivity. }
  split; [exact Hc|].
  exact (conflicting_options_refused demo_str demo_Signals 22 32
           demo_Popen demo_write demo_close demo_wait demo_time
           (CmdSeq [Text "true"]) true None None false None true false
           {["stdout" := PIPE]} demo_machine Hc).
Defined.

(** [literal_input_written] on [Process(['head'], input='foo')]: the
    input goes to the new pipe, which is then closed. *)
Lemma literal_input_written_witness :
  configure demo_str (CmdSeq [Text "head"]) None (Some (InText "foo"))
    false false ∅
  = inr (CmdSeq [Text "head"],
         <["stdin" := PIPE]> (<["universal_newlines" := VBool true]> ∅))
  ∧ launch demo_Popen (CmdSeq [Text "head"])
      (<["stdin" := PIPE]> (<["universal_newlines" := VBool true]> ∅))
      true None demo_machine
    = (inr {| pid := 0; args := CmdSeq [Text "head"]; check := true;
              tail := None; stdin := Some 0%nat; stdout := None;
              stderr := None |},
       record (EvPopen (CmdSeq [Text "head"])
                 (<["stdin" := PIPE]>
                    (<["universal_newlines" := VBool true]> ∅)))
         demo_machine)
  ∧ history
      (demo_Process (CmdSeq [Text "head"]) true None (Some (InText "foo"))
         false None false false ∅ demo_machine).2
    = [EvPopen (CmdSeq [Text "head"])
         (<["stdin" := PIPE]> (<["universal_newlines" := VBool true]> ∅));
       EvWrite 0%nat false (InText "foo");
       EvClose 0%nat].
Proof.
  assert (Hconf :
    configure demo_str (CmdSeq [Text "head"]) None (Some (InText "foo"))
      false false ∅
    = inr (CmdSeq [Text "head"],
           <["stdin" := PIPE]> (<["universal_newlines" := VBool true]> ∅)))
    by reflexivity.
  assert (Hlaunch :
    launch demo_Popen (CmdSeq [Text "head"])
      (<["stdin" := PIPE]> (<["universal_newlines" := VBool true]> ∅))
      true None demo_machine
    = (inr {| pid := 0; args := CmdSeq [Text "head"]; check := true;
              tail := None; stdin := Some 0%nat; stdout := None;
              stderr := None |},
       record (EvPopen (CmdSeq [Text "head"])
                 (<["stdin" := PIPE]>
                    (<["universal_newlines" := VBool true]> ∅)))
         demo_machine))
    by reflexivity.
  split; [exact Hconf|]. split; [exact Hlaunch|].
  destruct (literal_input_written demo_str demo_Signals 22 32
              demo_Popen demo_write demo_close demo_wait demo_time
              (CmdSeq [Text "head"]) true None (InText "foo") false None
              false false ∅ demo_machine _ _ _ _ Hconf Hlaunch)
    as [_ [_ Hinit]].
  rewrite Hinit. reflexivity.
Defined.

(** [tail_rebinds_stdin] on a [grep] after [demo_seq]. *)
Lemma tail_rebinds_stdin_witness :
  demo_Process (CmdSeq [Text "grep"; Text "8"]) true (Some demo_seq) None
    false None true false ∅ demo_machine
  = (inr {| pid := 0; args := CmdSeq [Text "grep"; Text "8"]; check := true;
            tail := Some demo_seq; stdin := None; stdout := Some 1%nat;
            stderr := None |},
     (demo_Process (CmdSeq [Text "grep"; Text "8"]) true (Some demo_seq) None
        false None true false ∅ demo_machine).2)
  ∧ ∃ args' kwargs' later,
      history
        (demo_Process (CmdSeq [Text "grep"; Text "8"]) true (Some demo_seq)
           None false None true false ∅ demo_machine).2
      = EvPopen args' kwargs' :: later
      ∧ kwargs' !! "stdin" = Some (VStream 4%nat).
Proof.
  assert (Hinit :
    demo_Process (CmdSeq [Text "grep"; Text "8"]) true (Some demo_seq) None
      false None true false ∅ demo_machine
    = (inr {| pid := 0; args := CmdSeq [Text "grep"; Text "8"]; check := true;
              tail := Some demo_seq; stdin := None; stdout := Some 1%nat;
              stderr := None |},
       (demo_Process (CmdSeq [Text "grep"; Text "8"]) true (Some demo_seq)
          None false None true false ∅ demo_machine).2))
    by reflexivity.
  split; [exact Hinit|].
  destruct (tail_rebinds_stdin demo_str demo_Signals 22 32
              demo_Popen demo_write demo_close demo_wait demo_time
              _ _ _ _ _ _ _ _ _ _ _ _ Hinit)
    as (_ & _ & args' & kwargs' & later & Hhist & Hstdin & _).
  exists args', kwargs', later. split; [exact Hhist|exact Hstdin].
Defined.


(** ** Where the spec says more than the code does *)

(** C3 as the spec has it fails: the keyword [x_] ends in an underscore,
    and [sh.foo(x_=1)] gives it to the marshaller, not to the
    construction of the Process. *)
Lemma short_underscore_name_marshalled :
  PyStr.endswith "_" "x_" = true
  ∧ ∃ process_kwargs : gmap string value,
      call_arguments demo_str true {| args_ := [Text "foo"]; opts_ := ∅ |}
        [] [("x_", VInt 1)]
      = inr (CmdSeq [Text "foo"; Text "--x-"; Text "1"], process_kwargs)
      ∧ process_kwargs !! "x" = None.
Proof.
  split; [reflexivity|]. eexists. split; [vm_compute; reflexivity|].
  vm_compute. reflexivity.
Qed.

(** C4 as the spec has it fails: a construction with a predecessor that
    has no output stream and with literal input asks for two of the
    three, and returns the object. *)
Lemma input_with_tail_accepted :
  (demo_Process (CmdSeq [Text "wc"]) true (Some demo_cat) (Some (InText "x"))
     false None false false ∅ demo_machine).1
  = inr {| pid := 0; args := CmdSeq [Text "wc"]; check := true;
           tail := Some demo_cat; stdin := Some 7%nat; stdout := None;
           stderr := None |}.
Proof. vm_compute. reflexivity. Qed.

(** C6 as the spec has it fails: instantiating [CommandError] itself
    raises nothing and gives an instance of the class of the code. *)
Lemma base_kind_instantiable :
  (demo_instantiate CommandError (VInt 1) demo_true no_kinds).1
  = inr {| inst_class := Subclass 0; inst_returncode := VInt 1;
           inst_process := demo_true |}.
Proof. vm_compute. reflexivity. Qed.

(** C8 as the spec has it fails: with a predecessor that has neither an
    output nor an input stream, a construction with literal input
    launches the process and then fails with a type error; the only call
    into the host is the launch, nothing is written and nothing is
    closed. *)
Lemma input_without_stdin_not_written :
  (demo_Process (CmdSeq [Text "cat"]) true (Some demo_true)
     (Some (InText "x")) false None false false ∅ demo_machine).1
  = inl (TypeError "Couldn't find stdin")
  ∧ ∃ args' kwargs',
      history
        (demo_Process (CmdSeq [Text "cat"]) true (Some demo_true)
           (Some (InText "x")) false None false false ∅ demo_machine).2
      = [EvPopen args' kwargs'].
Proof. split; [vm_compute; reflexivity|]. eexists _, _. vm_compute. reflexivity. Qed.

(** C10 as the spec has it fails: with a predecessor that has no output
    stream and with literal input, the construction returns the object,
    and the process was launched with a new pipe under [stdin], which is
    not the output stream of the predecessor. *)
Lemma tail_without_stdout_gets_pipe :
  (demo_Process (CmdSeq [Text "wc"]) true (Some demo_cat) (Some (InText "x"))
     false None false false ∅ demo_machine).1
  = inr {| pid := 0; args := CmdSeq [Text "wc"]; check := true;
           tail := Some demo_cat; stdin := Some 7%nat; stdout := None;
           stderr := None |}
  ∧ ∃ args' kwargs' later,
      history
        (demo_Process (CmdSeq [Text "wc"]) true (Some demo_cat)
           (Some (InText "x")) false None false false ∅ demo_machine).2
      = EvPopen args' kwargs' :: later
      ∧ kwargs' !! "stdin" = Some PIPE
      ∧ value_of_stream (stdout demo_cat) = VNone.
Proof.
  split; [vm_compute; reflexivity|]. eexists _, _, _.
  split; [vm_compute; reflexivity|]. split; vm_compute; reflexivity.
Qed.


(** ** The further properties at concrete inputs *)

Abbreviation demo_pipe :=
  (pipe_ demo_str true demo_Signals 22 32
     demo_Popen demo_write demo_close demo_wait demo_time) (only parsing).
Abbreviation demo_capture :=
  (capture_ demo_str true demo_Signals 22 32
     demo_Popen demo_write demo_close demo_wait demo_time) (only parsing).
Abbreviation demo_test :=
  (test_ demo_str true demo_Signals 22 32
     demo_Popen demo_write demo_close demo_wait demo_time) (only parsing).
Abbreviation demo_exit :=
  (Process__exit__ demo_Signals demo_close demo_wait demo_time)
  (only parsing).

(** [attribute_or_argument] on [sh.true.foo(cwd_='/')] and
    [sh.true('foo', cwd_='/')]. *)
Lemma attribute_or_argument_witness :
  Forall (λ kv : string * value, _is_reserved kv.1 = true)
    [("cwd_", VStr "/")]
  ∧ Command__getattr__ {| args_ := [Text "true"]; opts_ := ∅ |} "foo"
    = inr {| args_ := [Text "true"; Text "foo"]; opts_ := ∅ |}
  ∧ call_arguments demo_str true
      {| args_ := [Text "true"; Text "foo"]; opts_ := ∅ |} []
      [("cwd_", VStr "/")]
    = call_arguments demo_str true {| args_ := [Text "true"]; opts_ := ∅ |}
        [VStr "foo"] [("cwd_", VStr "/")].
Proof.
  assert (Hall : Forall (λ kv : string * value, _is_reserved kv.1 = true)
                   [("cwd_", VStr "/")])
    by (repeat constructor).
  assert (Hget :
    Command__getattr__ {| args_ := [Text "true"]; opts_ := ∅ |} "foo"
    = inr {| args_ := [Text "true"; Text "foo"]; opts_ := ∅ |})
    by reflexivity.
  split; [exact Hall|]. split; [exact Hget|].
  apply (attribute_or_argument demo_str true _ _ "foo" [] _ Hall);
    [|exact Hget].
  intros [|[|[|i]]]; discriminate.
Defined.

(** [pipe_template] on [sh.seq.pipe_(10)]. *)
Lemma pipe_template_witness :
  NoDup ([] : list (string * value)).*1
  ∧ ∃ process m',
      demo_pipe {| args_ := [Text "seq"]; opts_ := ∅ |} [VInt 10] []
        demo_machine
      = (inr {| args_ := []; opts_ := <["tail" := VProc process]> ∅ |}, m')
      ∧ check process = false
      ∧ tail process = None.
Proof.
  assert (Hnd : NoDup ([] : list (string * value)).*1) by constructor.
  split; [exact Hnd|].
  destruct (pipe_template demo_str true demo_Signals 22 32
              demo_Popen demo_write demo_close demo_wait demo_time
              {| args_ := [Text "seq"]; opts_ := ∅ |} [VInt 10] []
              demo_machine Hnd) as [_ Hok].
  destruct (demo_pipe {| args_ := [Text "seq"]; opts_ := ∅ |} [VInt 10] []
              demo_machine) as [[e|c] m'] eqn:Hpipe;
    [vm_compute in Hpipe; discriminate|].
  destruct (Hok c m' eq_refl) as (process & -> & Hcheck & Htail).
  exists process, m'. split; [reflexivity|]. split; [exact Hcheck|].
  specialize (Htail eq_refl). by injection Htail as <-.
Defined.

(** [capture_does_not_wait] on a template that stores [wait=True]. *)
Lemma capture_does_not_wait_witness :
  NoDup ([] : list (string * value)).*1
  ∧ Forall (λ v, ∀ p, v ≠ VProc p) [VInt 1]
  ∧ waited (history
              (demo_capture
                 {| args_ := [Text "sleep"];
                    opts_ := {["wait" := VBool true]} |}
                 [VInt 1] [] demo_machine).2) = []
  ∧ waited (history
              (demo_pipe
                 {| args_ := [Text "sleep"];
                    opts_ := {["wait" := VBool true]} |}
                 [VInt 1] [] demo_machine).2) = [].
Proof.
  assert (Hnd : NoDup ([] : list (string * value)).*1) by constructor.
  assert (Hargs : Forall (λ v, ∀ p, v ≠ VProc p) [VInt 1])
    by (repeat constructor; discriminate).
  assert (Htemplate : ∀ k p,
            ({["wait" := VBool true]} : gmap string value) !! k
            = Some (VProc p) → k = "tail").
  { intros k p Hk. apply lookup_singleton_Some in Hk as [_ Hk].
    discriminate. }
  split; [exact Hnd|]. split; [exact Hargs|].
  exact (capture_does_not_wait demo_str true demo_Signals 22 32
           demo_Popen demo_write demo_close demo_wait demo_time
           {| args_ := [Text "sleep"]; opts_ := {["wait" := VBool true]} |}
           [VInt 1] [] demo_machine Hnd eq_refl eq_refl eq_refl Hargs
           (Forall_nil_2 _) Htemplate).
Defined.

(** [test_unchecked] on a template that stores [check=True]. *)
Lemma test_unchecked_witness :
  NoDup ([] : list (string * value)).*1
  ∧ Forall (λ v, ∀ p, v ≠ VProc p) [VStr "-f"; VStr "/etc"]
  ∧ kinds_of
      (demo_test
         {| args_ := [Text "test"]; opts_ := {["check" := VBool true]} |}
         [VStr "-f"; VStr "/etc"] [] demo_machine).2
    = kinds_of demo_machine.
Proof.
  assert (Hnd : NoDup ([] : list (string * value)).*1) by constructor.
  assert (Hargs : Forall (λ v, ∀ p, v ≠ VProc p) [VStr "-f"; VStr "/etc"])
    by (repeat constructor; discriminate).
  assert (Htemplate : ∀ k p,
            ({["check" := VBool true]} : gmap string value) !! k
            = Some (VProc p) → k = "tail").
  { intros k p Hk. apply lookup_singleton_Some in Hk as [_ Hk].
    discriminate. }
  split; [exact Hnd|]. split; [exact Hargs|].
  destruct (test_unchecked demo_str true demo_Signals 22 32
              demo_Popen demo_write demo_close demo_wait demo_time
              {| args_ := [Text "test"];
                 opts_ := {["check" := VBool true]} |}
              [VStr "-f"; VStr "/etc"] [] demo_machine Hnd Hargs
              (Forall_nil_2 _) Htemplate) as [_ Hkinds].
  exact (Hkinds eq_refl).
Defined.

(** [signal_round_trip] on [SIGTERM] and on the code 10. *)
Lemma signal_round_trip_witness :
  NoDup demo_Signals.*1 ∧ NoDup demo_Signals.*2
  ∧ ("SIGTERM", 15) ∈ demo_Signals
  ∧ normalize_code demo_Signals (VStr "SIGTERM")
    = inr (VInt (-15), Some "SIGTERM")
  ∧ normalize_code demo_Signals (VInt (-15))
    = inr (VInt (-15), Some "SIGTERM")
  ∧ normalize_code demo_Signals (VInt 10) = inr (VInt 10, None).
Proof.
  assert (Hnames : NoDup demo_Signals.*1).
  { apply (bool_decide_unpack _). vm_compute. exact I. }
  assert (Hnums : NoDup demo_Signals.*2).
  { apply (bool_decide_unpack _). vm_compute. exact I. }
  assert (Hin : ("SIGTERM", 15) ∈ demo_Signals).
  { apply (bool_decide_unpack _). vm_compute. exact I. }
  assert (Hno : (- 10 ∉ demo_Signals.*2)).
  { apply (bool_decide_unpack _). vm_compute. exact I. }
  split; [exact Hnames|]. split; [exact Hnums|]. split; [exact Hin|].
  destruct (signal_round_trip demo_Signals "SIGTERM" 15 10 Hnames Hnums Hin)
    as (Hname & Hnumber & Hother).
  split; [exact Hname|]. split; [exact Hnumber|exact (Hother Hno)].
Defined.

(** [kind_name] on [SIGTERM] and on the code 5, when the module is
    loaded. *)
Lemma kind_name_witness :
  NoDup demo_Signals.*1 ∧ NoDup demo_Signals.*2
  ∧ ("SIGTERM", 15) ∈ demo_Signals
  ∧ cls_name
      <$> classes (demo_code CommandError (VInt (-15)) no_kinds).2 !! 0%nat
    = Some "CommandError['SIGTERM']"
  ∧ cls_name
      <$> classes (demo_code CommandError (VInt 5) no_kinds).2 !! 0%nat
    = Some "CommandError[5]".
Proof.
  assert (Hnames : NoDup demo_Signals.*1).
  { apply (bool_decide_unpack _). vm_compute. exact I. }
  assert (Hnums : NoDup demo_Signals.*2).
  { apply (bool_decide_unpack _). vm_compute. exact I. }
  assert (Hin : ("SIGTERM", 15) ∈ demo_Signals).
  { apply (bool_decide_unpack _). vm_compute. exact I. }
  assert (Hno : (- 5 ∉ demo_Signals.*2)).
  { apply (bool_decide_unpack _). vm_compute. exact I. }
  split; [exact Hnames|]. split; [exact Hnums|]. split; [exact Hin|].
  destruct (kind_name demo_Signals CommandError no_kinds "SIGTERM" 15 5
              Hnames Hnums Hin) as [Hsignal Hint]; [discriminate|].
  destruct (Hsignal eq_refl (VInt (-15)) (or_intror eq_refl))
    as [_ Hname].
  destruct (Hint Hno eq_refl) as [_ Hname'].
  split; [exact Hname|exact Hname'].
Defined.

(** [distinct_codes_distinct_kinds] on the codes 9 and 10, when the
    module is loaded. *)
Lemma distinct_codes_distinct_kinds_witness :
  reachable demo_Signals no_kinds
  ∧ ∃ k k' st1 st2,
      demo_code CommandError (VInt 9) no_kinds = (inr k, st1)
      ∧ demo_code CommandError (VInt 10) st1 = (inr k', st2)
      ∧ k ≠ k'.
Proof.
  split; [constructor|].
  exists (Subclass 0), (Subclass 1),
    (demo_code CommandError (VInt 9) no_kinds).2,
    (demo_code CommandError (VInt 10)
       (demo_code CommandError (VInt 9) no_kinds).2).2.
  split; [reflexivity|]. split; [reflexivity|].
  apply (distinct_codes_distinct_kinds demo_Signals no_kinds CommandError
           CommandError 9 10 (Subclass 0) (Subclass 1)
           (demo_code CommandError (VInt 9) no_kinds).2
           (demo_code CommandError (VInt 10)
              (demo_code CommandError (VInt 9) no_kinds).2).2
           (reachable_loaded demo_Signals) I I);
    [discriminate|reflexivity|reflexivity].
Defined.

(** [lookup_on_kind_subclasses] on [CommandError.code(9).code(10)]. *)
Lemma lookup_on_kind_subclasses_witness :
  reachable demo_Signals (demo_code CommandError (VInt 9) no_kinds).2
  ∧ known (demo_code CommandError (VInt 9) no_kinds).2 (Subclass 0)
  ∧ ∃ k st',
      demo_code (Subclass 0) (VInt 10)
        (demo_code CommandError (VInt 9) no_kinds).2
      = (inr k, st')
      ∧ issubclass st' k (Subclass 0) = true
      ∧ issubclass st' k CommandError = true.
Proof.
  assert (Hreach :
    reachable demo_Signals (demo_code CommandError (VInt 9) no_kinds).2)
    by (constructor; [constructor|exact I]).
  assert (Hknown :
    known (demo_code CommandError (VInt 9) no_kinds).2 (Subclass 0))
    by (vm_compute; lia).
  split; [exact Hreach|]. split; [exact Hknown|].
  destruct (lookup_on_kind_subclasses demo_Signals _ (Subclass 0) 10
              Hreach Hknown eq_refl)
    as (k & st' & Hcode & _ & _ & Hsub & Hbase).
  exists k, st'. split; [exact Hcode|]. split; [exact Hsub|exact Hbase].
Defined.

(** [sibling_kinds] on the codes 9 and 10, when the module is loaded. *)
Lemma sibling_kinds_witness :
  reachable demo_Signals no_kinds ∧ flat no_kinds
  ∧ ∃ st2,
      (demo_code CommandError (VInt 10)
         (demo_code CommandError (VInt 9) no_kinds).2).2 = st2
      ∧ issubclass st2 (Subclass 0) (Subclass 1) = false
      ∧ issubclass st2 (Subclass 1) (Subclass 0) = false.
Proof.
  assert (Hflat : flat no_kinds).
  { intros id o Hid. cbn in Hid. by rewrite lookup_nil in Hid. }
  split; [constructor|]. split; [exact Hflat|].
  eexists. split; [reflexivity|].
  apply (sibling_kinds demo_Signals no_kinds 9 10 (Subclass 0) (Subclass 1)
           (demo_code CommandError (VInt 9) no_kinds).2
           (demo_code CommandError (VInt 10)
              (demo_code CommandError (VInt 9) no_kinds).2).2
           (reachable_loaded demo_Signals) Hflat);
    [discriminate|reflexivity|reflexivity].
Defined.

(** [memo_holds_every_class] after the lookups of 9 and of [SIGTERM]. *)
Lemma memo_holds_every_class_witness :
  reachable demo_Signals
    (lookups demo_Signals
       [(CommandError, VInt 9); (CommandError, VStr "SIGTERM")] no_kinds)
  ∧ size (_subclasses
            (lookups demo_Signals
               [(CommandError, VInt 9); (CommandError, VStr "SIGTERM")]
               no_kinds))
    = 2%nat.
Proof.
  assert (Hreach :
    reachable demo_Signals
      (lookups demo_Signals
         [(CommandError, VInt 9); (CommandError, VStr "SIGTERM")] no_kinds))
    by (constructor; [constructor; [constructor|exact I]|exact I]).
  split; [exact Hreach|].
  destruct (memo_holds_every_class demo_Signals _ Hreach) as [_ Hsize].
  exact Hsize.
Defined.

(** [error_message] on the error of a process killed by [SIGTERM]. *)
Lemma error_message_witness :
  NoDup demo_Signals.*1 ∧ NoDup demo_Signals.*2
  ∧ ("SIGTERM", 15) ∈ demo_Signals
  ∧ CommandError__str__ demo_str demo_Signals
      {| inst_class := Subclass 0; inst_returncode := VInt (-15);
         inst_process := demo_true |}
    = inr "Command 'true' failed with SIGTERM".
Proof.
  assert (Hnames : NoDup demo_Signals.*1).
  { apply (bool_decide_unpack _). vm_compute. exact I. }
  assert (Hnums : NoDup demo_Signals.*2).
  { apply (bool_decide_unpack _). vm_compute. exact I. }
  assert (Hin : ("SIGTERM", 15) ∈ demo_Signals).
  { apply (bool_decide_unpack _). vm_compute. exact I. }
  split; [exact Hnames|]. split; [exact Hnums|]. split; [exact Hin|].
  destruct (error_message demo_str demo_Signals
              {| inst_class := Subclass 0; inst_returncode := VInt (-15);
                 inst_process := demo_true |}
              (-15) "SIGTERM" 15 Hnames Hnums eq_refl) as [Hsignal _].
  exact (Hsignal Hin eq_refl).
Defined.


(** [str_needs_one_capture] on [str(sh.true())], which captures
    nothing. *)
Lemma str_needs_one_capture_witness :
  (is_Some (stdout demo_true) ↔ is_Some (stderr demo_true))
  ∧ (Process__str__ demo_Signals demo_close demo_wait demo_time
       (λ _ : stream, ret "output") demo_true demo_machine).1
    = inl (AttributeError "Not capturing any output").
Proof.
  assert (Hboth : is_Some (stdout demo_true) ↔ is_Some (stderr demo_true))
    by done.
  split; [exact Hboth|].
  destruct (str_needs_one_capture demo_Signals demo_close demo_wait
              demo_time (λ _ : stream, ret "output") demo_true demo_machine
              Hboth) as (msg & Hmsg & _ & Hraises & _).
  injection Hmsg as <-. exact (Hraises false eq_refl).
Defined.
